(** * gm-validation-v2: the grading core, embedded and verified

    A shallow embedding of [src/runCode.ts] and [src/validation.ts]:
    the output comparator, the tokenizer/normalizer, the token-set
    similarity scorer, the structural checker and the grading
    orchestrator [validateCCode].

    Conventions.
    - A JavaScript string is the list of its UTF-16 code units
      ([jsstring := list N]); none of the regular expressions of the
      source carries the [u] flag, so they all work on code units.
    - The problem store ([./problems], not part of the sources at hand)
      and the remote execution service are collaborators: the store's
      lookup is a parameter of the orchestrator, the network's answer to
      one [fetch] is an input of [runCCode].
    - A JavaScript number is kept as its exact value, a rational; the
      rounding of binary64 arithmetic is explicit, see [Number].  [score]
      only takes integral values and is a [Z]. *)

From Stdlib Require Import ZArith NArith QArith Qround Lia Ascii String DecimalString.
From stdpp Require Import gmap sets list.

Local Open Scope N_scope.

(** ** JavaScript strings and the regular-expression primitives in use *)
Module Js.

Definition jsstring : Type := list N.

(** A string literal of the source as code units. *)
Definition js (s : string) : jsstring := map N_of_ascii (list_ascii_of_string s).
Arguments js s%_string.

(** [n.toString()] of an integral number, as in a template literal. *)
Definition numberToString (n : Z) : jsstring :=
  js (NilEmpty.string_of_int (Z.to_int n)).

(** ECMAScript [WhiteSpace] and [LineTerminator]: what [\s] matches and
    what [String.prototype.trim] strips. *)
Definition isSpace (c : N) : bool :=
  existsb (N.eqb c)
    [9; 10; 11; 12; 13; 32; 160; 5760; 8232; 8233; 8239; 8287; 12288; 65279]
  || ((8192 <=? c) && (c <=? 8202)).

(** [[ \t]] *)
Definition isBlank (c : N) : bool := (c =? 32) || (c =? 9).

(** [\d] *)
Definition isDigit (c : N) : bool := (48 <=? c) && (c <=? 57).

(** [[a-zA-Z_]] *)
Definition isIdentStart (c : N) : bool :=
  ((97 <=? c) && (c <=? 122)) || ((65 <=? c) && (c <=? 90)) || (c =? 95).

(** [\w], that is [[a-zA-Z0-9_]] *)
Definition isWord (c : N) : bool := isIdentStart c || isDigit c.

(** [[+\-*\/%=<>!&|]] *)
Definition isOperator (c : N) : bool :=
  existsb (N.eqb c) [43; 45; 42; 47; 37; 61; 60; 62; 33; 38; 124].

(** [\(|\)|\{|}|\[|]|;|,] *)
Definition isPunct (c : N) : bool :=
  existsb (N.eqb c) [40; 41; 123; 125; 91; 93; 59; 44].

Definition eqb (a b : jsstring) : bool := bool_decide (a = b).

(** [!s] on a string, [!l.length] on an array. *)
Definition isEmpty {A} (l : list A) : bool := (length l =? 0)%nat.

(** The longest prefix whose elements all satisfy [f], and what follows
    it. *)
Fixpoint takeWhile {A} (f : A -> bool) (l : list A) : list A :=
  match l with
  | x :: l' => if f x then x :: takeWhile f l' else []
  | [] => []
  end.

Fixpoint dropWhile {A} (f : A -> bool) (l : list A) : list A :=
  match l with
  | x :: l' => if f x then dropWhile f l' else l
  | [] => []
  end.

(** What is left of a list once the elements satisfying [f] are taken
    off both of its ends. *)
Definition stripBoth {A} (f : A -> bool) (l : list A) : list A :=
  rev (dropWhile f (rev (dropWhile f l))).

(** [s.trim()] *)
Definition trim (s : jsstring) : jsstring := stripBoth isSpace s.

(** Is [c] the first unit of [s]? *)
Definition headIs (c : N) (s : jsstring) : bool :=
  match s with
  | x :: _ => x =? c
  | [] => false
  end.

(** [s.split(sep)] for a one-unit separator; [''.split(sep)] is [['']]. *)
Fixpoint split (sep : N) (s : jsstring) : list jsstring :=
  match s with
  | [] => [[]]
  | c :: s' =>
    if c =? sep then [] :: split sep s'
    else match split sep s' with
         | l :: ls => (c :: l) :: ls
         | [] => [[c]]
         end
  end.

(** [parts.join(sep)] *)
Fixpoint join (sep : jsstring) (parts : list jsstring) : jsstring :=
  match parts with
  | [] => []
  | [l] => l
  | l :: ls => l ++ sep ++ join sep ls
  end.

(** [s.slice(0, n)] for [n >= 0], on strings and on arrays. *)
Definition slice0 {A} (n : nat) (l : list A) : list A := take n l.

(** A pattern, tried at the head of the remaining input: the length of
    its match there, [0] when it does not match.  Every pattern of the
    source matches at least one code unit, so [0] is never a match. *)
Definition Pattern : Type := jsstring -> nat.

(** [s.replace(/p/g, rep)]: scan from the left; where the pattern
    matches, emit [rep] and resume after the match, otherwise keep the
    unit and move on.  [skip] counts the units of the current match still
    to be dropped. *)
Fixpoint replaceAll (p : Pattern) (rep : jsstring) (skip : nat) (s : jsstring)
  : jsstring :=
  match s with
  | [] => []
  | c :: s' =>
    match skip with
    | S k => replaceAll p rep k s'
    | O =>
      match p s with
      | O => c :: replaceAll p rep 0%nat s'
      | S k => rep ++ replaceAll p rep k s'
      end
    end
  end.

(** The [while ((m = regex.exec(s)) !== null) out.push(m[0])] loop of a
    global pattern: all matches, left to right, not overlapping. *)
Fixpoint matchAll (p : Pattern) (skip : nat) (s : jsstring) : list jsstring :=
  match s with
  | [] => []
  | _ :: s' =>
    match skip with
    | S k => matchAll p k s'
    | O =>
      match p s with
      | O => matchAll p 0%nat s'
      | S k => take (S k) s :: matchAll p k s'
      end
    end
  end.

(** [/p/.test(s)]: does the pattern match at some position?  The pattern
    sees the unit before the position, for [\b]. *)
Fixpoint test (p : option N -> jsstring -> bool) (prev : option N) (s : jsstring)
  : bool :=
  p prev s ||
  match s with
  | [] => false
  | c :: s' => test p (Some c) s'
  end.

(** [(s.match(/c/g) || []).length] for a single unit [c]. *)
Definition countUnit (c : N) (s : jsstring) : nat :=
  length (filter (fun x => x = c) s).

(** [\b] in front of a word character. *)
Definition wordStart (prev : option N) : bool :=
  match prev with
  | None => true
  | Some c => negb (isWord c)
  end.

(** The rest of the input after a literal prefix. *)
Fixpoint after (lit s : jsstring) : option jsstring :=
  match lit, s with
  | [], _ => Some s
  | a :: lit', b :: s' => if a =? b then after lit' s' else None
  | _ :: _, [] => None
  end.

(** The run of units satisfying [f] at the head of the input. *)
Definition run (f : N -> bool) (s : jsstring) : nat := length (takeWhile f s).

End Js.
Export Js.

(** ** JavaScript numbers *)
Module Number.
Local Open Scope Q_scope.

(** A number is a binary64 value; the model keeps its exact value.  An
    arithmetic operation returns the exact result rounded to the nearest
    binary64 value, [fl].  What the grading core relies on is that
    rounding preserves the order and leaves the integers up to [2^53]
    as they are; the development holds for every rounding that does. *)
Class Binary64 : Type := {
  fl : Q -> Q;
  fl_compat : forall x y, x == y -> fl x == fl y;
  fl_monotone : forall x y, x <= y -> fl x <= fl y;
  fl_integer :
    forall n : Z, (Z.abs n <= 2 ^ 53)%Z -> fl (inject_Z n) == inject_Z n
}.

(** Arithmetic that does not round, to compute with. *)
Definition exactArithmetic : Binary64 :=
  {| fl := fun x => x;
     fl_compat := fun _ _ H => H;
     fl_monotone := fun _ _ H => H;
     fl_integer := fun n _ => Qeq_refl (inject_Z n) |}.

(** [a / b] and [a * b] *)
Definition div `{Binary64} (a b : Q) : Q := fl (a / b).
Definition mul `{Binary64} (a b : Q) : Q := fl (a * b).

(** A decimal literal, such as [0.3] *)
Definition literal `{Binary64} (x : Q) : Q := fl x.

(** [a < b] *)
Definition Qltb (x y : Q) : bool := negb (Qle_bool y x).

(** [Math.round]: the nearest integer, a half going up. *)
Definition Math_round (x : Q) : Z := Qfloor (x + (1 # 2)).

(** A count ([array.length], [set.size], a loop counter) as a number. *)
Definition number (n : nat) : Q := inject_Z (Z.of_nat n).

End Number.
Export Number.

(** ** [src/runCode.ts]: the execution collaborator and the output comparator *)
Module RunCode.

Record RunResult : Type := {
  success : bool;
  stdout : jsstring;
  stderr : jsstring;
  error : option jsstring
}.

(** The [run] object of the execution service's JSON answer. *)
Record PistonRun : Type := {
  run_stdout : option jsstring;
  run_stderr : option jsstring;
  run_code : option Z
}.

(** What one [fetch] of the execution service can come to. *)
Inductive FetchOutcome : Type :=
| Threw (message : option jsstring)
    (** [fetch] or [res.json()] rejected; the message when the fault is
        an [Error] *)
| NotOk (status : Z)
    (** [!res.ok] *)
| Answered (run : option PistonRun) (message : option jsstring).
    (** the parsed body *)

(** The network: the outcome of posting [code] with [stdin]. *)
Definition Network : Type := jsstring -> jsstring -> FetchOutcome.

(** The value of [a || b] on strings. *)
Definition orElse (a b : jsstring) : jsstring :=
  match a with [] => b | _ => a end.

(** [runCCode]: every outcome, a rejected [fetch] included, is turned
    into a [RunResult]. *)
Definition runCCode (net : Network) (code stdin : jsstring) : RunResult :=
  match net code stdin with
  | Threw message =>
    {| success := false; stdout := []; stderr := [];
       error := Some (default (js "Failed to run code") message) |}
  | NotOk status =>
    {| success := false; stdout := []; stderr := [];
       error := Some (js "API error: " ++ numberToString status) |}
  | Answered _ (Some ((_ :: _) as message)) =>
    {| success := false; stdout := []; stderr := message;
       error := Some message |}
  | Answered run _ =>
    let stdout := default [] (run ≫= run_stdout) in
    let stderr := default [] (run ≫= run_stderr) in
    let exitCode := default (-1)%Z (run ≫= run_code) in
    {| success := (exitCode =? 0)%Z;
       stdout := stdout;
       stderr := orElse stderr
                   (if (exitCode =? 0)%Z then []
                    else js "Exit code: " ++ numberToString exitCode);
       error := None |}
  end.

(** [/\r\n/], [/\r/] and [/[ \t]+/] *)
Definition crlf : Pattern := fun s =>
  match s with
  | c :: s' => if (c =? 13) && headIs 10 s' then 2%nat else 0%nat
  | [] => 0%nat
  end.
Definition cr : Pattern := fun s => if headIs 13 s then 1%nat else 0%nat.
Definition blanks : Pattern := run isBlank.

(** Normalize output for comparison: trim, collapse whitespace. *)
Definition normalizeOutput (s : jsstring) : jsstring :=
  trim
    (join [10]
       (map trim
          (split 10
             (replaceAll blanks [32] 0
                (replaceAll cr [10] 0
                   (replaceAll crlf [10] 0 s)))))).

Definition outputsMatch (actual expected : jsstring) : bool :=
  eqb (normalizeOutput actual) (normalizeOutput expected).

End RunCode.
Export RunCode.

(** ** The problem store, [./problems] (a collaborator: only the shape of
    a record is fixed here, by the fields the grading core reads) *)
Module Problems.

Record ProblemEntry : Type := {
  problem : jsstring;
  solution : jsstring;
  stdin : option jsstring;
  expectedOutput : option jsstring
}.

End Problems.

(** ** [src/validation.ts]: normalizer, tokenizer, scorers, orchestrator *)
Module Validation.

Record ValidationResult : Type := {
  score : Z;
  mistakes : list jsstring;
  summary : jsstring;
  matchedProblem : option jsstring;
  userOutput : option jsstring;
  expectedOutput : option jsstring;
  outputMatched : option bool
}.

(** *** normalizeCode *)

(** [/\/\/[^\n]*/] *)
Definition lineComment : Pattern := fun s =>
  match s with
  | c :: d :: r =>
    if (c =? 47) && (d =? 47)
    then S (S (run (fun x => negb (x =? 10)) r))
    else 0%nat
  | _ => 0%nat
  end.

(** The units up to and including the first [*/], if there is one. *)
Fixpoint closing (s : jsstring) : option nat :=
  match s with
  | [] => None
  | c :: s' =>
    if (c =? 42) && headIs 47 s' then Some 2%nat else S <$> closing s'
  end.

(** [/\/\*[\s\S]*?\*\//]: lazy, so up to the first [*/] after the
    opening; no match when the comment is never closed. *)
Definition blockComment : Pattern := fun s =>
  match s with
  | c :: d :: r =>
    if (c =? 47) && (d =? 42)
    then match closing r with
         | Some n => S (S n)
         | None => 0%nat
         end
    else 0%nat
  | _ => 0%nat
  end.

(** [/\s+/] *)
Definition spaces : Pattern := run isSpace.

(** Normalize C code for comparison: remove comments, collapse whitespace. *)
Definition normalizeCode (code : jsstring) : jsstring :=
  let s := code in
  let s := replaceAll lineComment [] 0 s in
  let s := replaceAll blockComment [] 0 s in
  let s := trim (replaceAll spaces [32] 0 s) in
  s.

(** *** getTokens *)

(** [[a-zA-Z_][a-zA-Z0-9_]*] *)
Definition identifier : Pattern := fun s =>
  match s with
  | c :: r => if isIdentStart c then S (run isWord r) else 0%nat
  | [] => 0%nat
  end.

(** [\(|\)|\{|}|\[|]|;|,] *)
Definition punctuation : Pattern := fun s =>
  match s with
  | c :: _ => if isPunct c then 1%nat else 0%nat
  | [] => 0%nat
  end.

(** The alternation of [getTokens], first alternative first. *)
Definition tokenPattern : Pattern := fun s =>
  match identifier s with
  | S n => S n
  | O =>
    match run isDigit s with
    | S n => S n
    | O =>
      match run isOperator s with
      | S n => S n
      | O => punctuation s
      end
    end
  end.

Definition getTokens (code : jsstring) : list jsstring :=
  let normalized := normalizeCode code in
  matchAll tokenPattern 0 normalized.

(** *** tokenSimilarity *)

(** A [Set] of strings is a [gset jsstring]; iterating over it visits
    [elements]. *)
Section Similarity.

Context {arith : Binary64}.

(** [String.prototype.toLowerCase] *)
Variable toLowerCase : jsstring -> jsstring.

Definition tokenSimilarity (a b : list jsstring) : Q :=
  if (length a =? 0)%nat && (length b =? 0)%nat then 1
  else if (length a =? 0)%nat || (length b =? 0)%nat then 0
  else
    let setA : gset jsstring := list_to_set (map toLowerCase a) in
    let setB : gset jsstring := list_to_set (map toLowerCase b) in
    let matches :=
      foldl (fun n t => if bool_decide (t ∈ setB) then S n else n) 0%nat
            (elements setA) in
    let union : gset jsstring := list_to_set (elements setA ++ elements setB) in
    div (number matches) (number (size union)).

End Similarity.

(** [toLowerCase] on a string of ASCII units, which is what every token
    is (see [getTokens_ascii]). *)
Definition asciiToLowerCase (s : jsstring) : jsstring :=
  map (fun c => if (65 <=? c) && (c <=? 90) then c + 32 else c) s.

(** *** checkStructure *)

(** [/\bname\s*\(/] at one position *)
Definition callOf (name : jsstring) (prev : option N) (s : jsstring) : bool :=
  wordStart prev &&
  match after name s with
  | Some r => headIs 40 (dropWhile isSpace r)
  | None => false
  end.

(** [/\b(printf|scanf|fgets)\s*\(/] at one position *)
Definition ioCall (prev : option N) (s : jsstring) : bool :=
  callOf (js "printf") prev s || callOf (js "scanf") prev s
  || callOf (js "fgets") prev s.

(** [/#\s*include\s*[<"]stdio\.h[>"]/] at one position *)
Definition includeStdio (_ : option N) (s : jsstring) : bool :=
  match s with
  | c :: r =>
    (c =? 35) &&
    match after (js "include") (dropWhile isSpace r) with
    | Some r1 =>
      match dropWhile isSpace r1 with
      | q :: r2 =>
        ((q =? 60) || (q =? 34)) &&
        match after (js "stdio.h") r2 with
        | Some r3 => headIs 62 r3 || headIs 34 r3
        | None => false
        end
      | [] => false
      end
    | None => false
    end
  | [] => false
  end.

(** [/%\s*2/] and [/%/] at one position *)
Definition modulo2 (_ : option N) (s : jsstring) : bool :=
  match s with
  | c :: r => (c =? 37) && headIs 50 (dropWhile isSpace r)
  | [] => false
  end.

Definition percent (_ : option N) (s : jsstring) : bool := headIs 37 s.

Module StructureCheck.
Record t : Type := { mistakes : list jsstring; penalties : Z }.

(** [if (violated) { mistakes.push(message); penalties += points }] *)
Definition rule (violated : bool) (message : jsstring) (points : Z) (acc : t) : t :=
  if violated
  then {| mistakes := mistakes acc ++ [message];
          penalties := penalties acc + points |}
  else acc.
End StructureCheck.

Definition checkStructure (userCode refCode : jsstring) : StructureCheck.t :=
  let acc := {| StructureCheck.mistakes := []; StructureCheck.penalties := 0 |} in
  let acc :=
    StructureCheck.rule (negb (test (callOf (js "main")) None userCode))
      (js "Missing main() function") 25 acc in
  let usesIO := test ioCall None refCode in
  let hasInclude := test includeStdio None userCode in
  let acc :=
    StructureCheck.rule (usesIO && negb hasInclude)
      (js "Missing #include <stdio.h>") 15 acc in
  let openB := countUnit 123 userCode in
  let closeB := countUnit 125 userCode in
  let acc :=
    StructureCheck.rule (negb (openB =? closeB)%nat)
      (js "Unbalanced braces") 20 acc in
  let acc :=
    StructureCheck.rule
      (test (callOf (js "switch")) None refCode
       && negb (test (callOf (js "switch")) None userCode))
      (js "Problem requires switch statement") 15 acc in
  let acc :=
    StructureCheck.rule
      (test modulo2 None refCode && negb (test percent None userCode))
      (js "Use modulo operator (%) for even/odd check") 10 acc in
  let acc :=
    StructureCheck.rule
      (test (callOf (js "fgets")) None refCode
       && test (callOf (js "gets")) None userCode)
      (js "Use fgets() instead of gets()") 10 acc in
  acc.

(** *** Calls, recorded

    The orchestrator is run in a small writer monad that records, in
    order, which collaborator and which analysis was called: the result
    of a computation comes with the log of the calls made to obtain it. *)

Inductive Call : Type :=
| CallRunCCode (code stdin : jsstring)
| CallOutputsMatch (actual expected : jsstring)
| CallCompareToReference (userCode refCode : jsstring)
| CallTokenSimilarity (a b : list jsstring)
| CallCheckStructure (userCode refCode : jsstring).

Record Logged (A : Type) : Type := { calls : list Call; value : A }.
Arguments calls {A} _.
Arguments value {A} _.

Definition ret {A} (x : A) : Logged A := {| calls := []; value := x |}.

Definition bind {A B} (m : Logged A) (k : A -> Logged B) : Logged B :=
  {| calls := calls m ++ calls (k (value m)); value := value (k (value m)) |}.

(** Calling [c], which returns [x]. *)
Definition call {A} (c : Call) (x : A) : Logged A := {| calls := [c]; value := x |}.

(** Calling [c], whose body is the computation [m]. *)
Definition calling {A} (c : Call) (m : Logged A) : Logged A :=
  {| calls := c :: calls m; value := value m |}.

Notation "'let*' x ':=' m 'in' k" := (bind m (fun x => k))
  (at level 10, x name, m at level 100, k at level 200).

(** *** compareToReference *)

Definition compareToReference `{Binary64} (userCode refCode : jsstring)
  : Logged ValidationResult :=
  let userNorm := normalizeCode userCode in
  if isEmpty userNorm then
    ret {| score := 0;
           mistakes := [js "No code provided"];
           summary := js "Please write your C solution.";
           matchedProblem := None;
           userOutput := None; expectedOutput := None; outputMatched := None |}
  else
    let userTokens := getTokens userCode in
    let refTokens := getTokens refCode in
    let* tokenSim :=
      call (CallTokenSimilarity userTokens refTokens)
           (tokenSimilarity asciiToLowerCase userTokens refTokens) in
    let* structureCheck :=
      call (CallCheckStructure userCode refCode)
           (checkStructure userCode refCode) in
    let score := Math_round (mul tokenSim 60) in
    let score := (score + Z.max 0 (40 - StructureCheck.penalties structureCheck))%Z in
    let score := Z.min 100 score in
    let allMistakes := StructureCheck.mistakes structureCheck in
    let allMistakes :=
      if Qltb tokenSim (literal (3 # 10)) && isEmpty allMistakes
      then allMistakes ++
           [js "Solution structure differs significantly from expected approach"]
      else allMistakes in
    let allMistakes :=
      if (90 <=? score)%Z && isEmpty allMistakes
      then allMistakes ++ [js "No major issues - good match!"]
      else allMistakes in
    let summary :=
      if (80 <=? score)%Z
      then js "Your solution closely matches the reference."
      else if (50 <=? score)%Z
      then js "Your solution has some differences from the expected approach."
      else js "Significant differences from the reference solution. Review the issues." in
    ret {| score := score;
           mistakes :=
             if isEmpty allMistakes
             then [js "Review your implementation for minor improvements"]
             else allMistakes;
           summary := summary;
           matchedProblem := None;
           userOutput := None; expectedOutput := None; outputMatched := None |}.

(** *** validateCCode *)

Section Orchestrator.

Context {arith : Binary64}.

(** The store after [seedProblemsIfNeeded()], as [getStoredProblems()]
    returns it, and its lookup. *)
Variable problems : list Problems.ProblemEntry.
Variable findMatchingProblem :
  jsstring -> list Problems.ProblemEntry -> option Problems.ProblemEntry.

(** The execution collaborator as the orchestrator sees it: [await
    runCCode(code, stdin)] for some state of the network. *)
Variable execute : jsstring -> jsstring -> RunResult.

(** [s.slice(0, 200)] followed by ['...'] when [raw] is longer than 200. *)
Definition excerpt (s raw : jsstring) : jsstring :=
  slice0 200 s ++ (if (200 <? length raw)%nat then js "..." else []).

Definition quote : jsstring := [34].

(** [entry.expectedOutput != null && entry.expectedOutput !== ''] *)
Definition hasOutputCheck (entry : Problems.ProblemEntry) : bool :=
  match Problems.expectedOutput entry with
  | Some (_ :: _) => true
  | _ => false
  end.

Definition validateCCode (problem code : jsstring) : Logged ValidationResult :=
  let matched := findMatchingProblem problem problems in
  match matched with
  | None =>
    ret {| score := 0;
           mistakes := [js "No matching problem found in the database.";
                        js "Paste the exact problem text from the list."];
           summary := js "Could not find this problem. Use the exact problem description.";
           matchedProblem := None;
           userOutput := None; expectedOutput := None; outputMatched := None |}
  | Some entry =>
    if hasOutputCheck entry then
      let expected := default [] (Problems.expectedOutput entry) in
      let stdin := default [] (Problems.stdin entry) in
      let* runResult := call (CallRunCCode code stdin) (execute code stdin) in
      if negb (success runResult) && negb (isEmpty (stderr runResult)) then
        ret {| score := 0;
               mistakes := [js "Code failed to compile or run.";
                            join [10] (slice0 3 (split 10 (stderr runResult)))];
               summary := js "Fix compilation/runtime errors first.";
               matchedProblem := Some (Problems.problem entry);
               userOutput :=
                 if isEmpty (stdout runResult) then None
                 else Some (stdout runResult);
               expectedOutput := Problems.expectedOutput entry;
               outputMatched := Some false |}
      else
        let* matchedOutput :=
          call (CallOutputsMatch (stdout runResult) expected)
               (outputsMatch (stdout runResult) expected) in
        if negb matchedOutput then
          ret {| score := 0;
                 mistakes :=
                   [js "Wrong answer. Output does not match the expected result.";
                    js "Your output: " ++ quote
                      ++ excerpt (normalizeOutput (stdout runResult)) (stdout runResult)
                      ++ quote;
                    js "Expected: " ++ quote
                      ++ excerpt (normalizeOutput expected) expected
                      ++ quote];
                 summary := js "Answer is incorrect. Fix your output first, then validate again.";
                 matchedProblem := Some (Problems.problem entry);
                 userOutput := Some (stdout runResult);
                 expectedOutput := Problems.expectedOutput entry;
                 outputMatched := Some false |}
        else
          let* result :=
            calling (CallCompareToReference code (Problems.solution entry))
                    (compareToReference code (Problems.solution entry)) in
          ret {| score := score result;
                 mistakes := mistakes result;
                 summary :=
                   if (80 <=? score result)%Z
                   then js "Answer correct. Code structure and logic closely match the reference."
                   else if (50 <=? score result)%Z
                   then js "Answer correct. Code has some differences from the reference approach."
                   else js "Answer correct. Consider improving code structure and logic.";
                 matchedProblem := Some (Problems.problem entry);
                 userOutput := Some (stdout runResult);
                 expectedOutput := Problems.expectedOutput entry;
                 outputMatched := Some true |}
    else
      let* result :=
        calling (CallCompareToReference code (Problems.solution entry))
                (compareToReference code (Problems.solution entry)) in
      ret {| score := score result;
             mistakes := mistakes result;
             summary := summary result;
             matchedProblem := Some (Problems.problem entry);
             userOutput := userOutput result;
             expectedOutput := expectedOutput result;
             outputMatched := outputMatched result |}
  end.

End Orchestrator.

End Validation.
Export Validation.

(** ** The properties to establish, in the specification's words *)
Module Spec.

(** The set of case-lowered tokens of a token list. *)
Definition lowered (toLowerCase : jsstring -> jsstring) (a : list jsstring)
  : gset jsstring :=
  list_to_set (map toLowerCase a).

(** Jaccard similarity of two sets: intersection size divided by union
    size, as a number. *)
Definition jaccard `{Binary64} (A B : gset jsstring) : Q :=
  div (number (size (A ∩ B))) (number (size (A ∪ B))).

(** Score composition:
    [round(tokenSimilarity * 60) + max(0, 40 - structuralPenalty)],
    then clamped to at most 100. *)
Definition composedScore `{Binary64} (userCode refCode : jsstring) : Z :=
  Z.min 100
    (Math_round
       (mul (tokenSimilarity asciiToLowerCase (getTokens userCode) (getTokens refCode))
            60)
     + Z.max 0 (40 - StructureCheck.penalties (checkStructure userCode refCode))).

(** The calls that make up similarity and structural scoring. *)
Definition isScoring (c : Call) : bool :=
  match c with
  | CallCompareToReference _ _ | CallTokenSimilarity _ _ | CallCheckStructure _ _ => true
  | _ => false
  end.

(** The two analyses proper: the similarity scorer and the structural
    checker. *)
Definition isAnalysis (c : Call) : bool :=
  match c with
  | CallTokenSimilarity _ _ | CallCheckStructure _ _ => true
  | _ => false
  end.

Definition isExecution (c : Call) : bool :=
  match c with
  | CallRunCCode _ _ => true
  | _ => false
  end.

Definition isOutputComparison (c : Call) : bool :=
  match c with
  | CallOutputsMatch _ _ => true
  | _ => false
  end.

(** The diagnostic excerpt: the first 3 lines of [stderr]. *)
Definition diagnosticExcerpt (stderr : jsstring) : jsstring :=
  join [10] (take 3 (split 10 stderr)).

(** A text passes the structural checks that look at the submission
    when it is its own reference: it calls [main], includes [stdio.h] if
    it calls [printf], [scanf] or [fgets], has as many opening as closing
    braces, and does not call [gets] next to [fgets]. *)
Definition selfConsistent (code : jsstring) : bool :=
  test (callOf (js "main")) None code
  && (negb (test ioCall None code) || test includeStdio None code)
  && (countUnit 123 code =? countUnit 125 code)%nat
  && negb (test (callOf (js "fgets")) None code
           && test (callOf (js "gets")) None code).

(** The submission has no content left after comment removal and
    whitespace normalization. *)
Definition blankSubmission (code : jsstring) : bool :=
  isEmpty (normalizeCode code).

End Spec.
Export Spec.

(** ** The shape of normalised output *)
Module Shape.

(** No tab, and no two blanks in a row; [afterBlank] tells whether the
    unit before [s] was a blank. *)
Fixpoint squeezed (afterBlank : bool) (s : jsstring) : bool :=
  match s with
  | [] => true
  | c :: s' =>
    if isBlank c then (c =? 32) && negb afterBlank && squeezed true s'
    else squeezed false s'
  end.

(** A line of normalised output: no carriage return and no line break,
    blanks squeezed, no white space at either end. *)
Definition normalLine (l : jsstring) : Prop :=
  Forall (fun c => c <> 13) l
  /\ Forall (fun c => c <> 10) l
  /\ squeezed false l = true
  /\ dropWhile isSpace l = l
  /\ dropWhile isSpace (rev l) = rev l.

(** The lines of normalised output: normal lines, the first and the last
    of which are not empty. *)
Definition normalLines (ls : list jsstring) : Prop :=
  Forall normalLine ls /\ stripBoth isEmpty ls = ls.

End Shape.
Export Shape.

(** ** Sample stores, networks and submissions, graded in exact
    arithmetic *)
Module Samples.

#[local] Existing Instance exactArithmetic.

Definition refMain : jsstring := js "int main(){return 0;}".

Definition entryFor (solution : jsstring) (expected : option jsstring)
  : Problems.ProblemEntry :=
  {| Problems.problem := js "Return zero.";
     Problems.solution := solution;
     Problems.stdin := None;
     Problems.expectedOutput := expected |}.

Definition entryWith (expected : option jsstring) : Problems.ProblemEntry :=
  entryFor refMain expected.

(** A store's lookup by exact problem text. *)
Definition findExact (problem : jsstring) (problems : list Problems.ProblemEntry)
  : option Problems.ProblemEntry :=
  List.find (fun e => eqb (Problems.problem e) problem) problems.

(** The service answers with HTTP status 500. *)
Definition netDown : Network := fun _ _ => NotOk 500.

(** The program ran, printed [out] and exited with 0. *)
Definition netPrints (out : jsstring) : Network := fun _ _ =>
  Answered (Some {| run_stdout := Some out; run_stderr := None;
                    run_code := Some 0%Z |}) None.

(** The compiler rejected the program with four lines of diagnostics. *)
Definition netRejects : Network := fun _ _ =>
  Answered (Some {| run_stdout := None;
                    run_stderr :=
                      Some (js "main.c:1: error" ++ [10] ++ js "line 2" ++ [10]
                            ++ js "line 3" ++ [10] ++ js "line 4");
                    run_code := Some 1%Z |}) None.

(** [validateCCode] on a store of one record. *)
Definition gradeFor (solution : jsstring) (expected : option jsstring)
           (net : Network) (code : jsstring) : Logged ValidationResult :=
  validateCCode [entryFor solution expected] findExact (runCCode net)
                (js "Return zero.") code.

Definition gradeWith (expected : option jsstring) (net : Network) (code : jsstring)
  : Logged ValidationResult :=
  gradeFor refMain expected net code.

End Samples.

(** ** Variations of a text, to state what the normalizers ignore *)
Module Variations.

(** The same text with Windows line endings: every line break becomes
    a carriage return followed by a line break. *)
Definition toCRLF (s : jsstring) : jsstring :=
  flat_map (fun c => if c =? 10 then [13; 10] else [c]) s.

(** The same text with carriage returns for line breaks. *)
Definition toCR (s : jsstring) : jsstring :=
  map (fun c => if c =? 10 then 13 else c) s.

(** Both line-ending replacements of [normalizeOutput] in one pass:
    [skipLF] tells that the unit before was a carriage return, whose line
    break, if it follows, is already accounted for. *)
Fixpoint unifyLineEnds (skipLF : bool) (s : jsstring) : jsstring :=
  match s with
  | [] => []
  | c :: s' =>
    if skipLF && (c =? 10) then unifyLineEnds false s'
    else if c =? 13 then 10 :: unifyLineEnds true s'
    else c :: unifyLineEnds false s'
  end.

End Variations.
Export Variations.

(** ** Further notions used to state what the grading core guarantees *)
Module Notions.

(** The four kinds of token of [getTokens]. *)
Definition isIdentifier (t : jsstring) : bool :=
  match t with
  | c :: r => isIdentStart c && forallb isWord r
  | [] => false
  end.

Definition isNumber (t : jsstring) : bool :=
  negb (isEmpty t) && forallb isDigit t.

Definition isOperatorRun (t : jsstring) : bool :=
  negb (isEmpty t) && forallb isOperator t.

Definition isPunctuation (t : jsstring) : bool :=
  match t with
  | [c] => isPunct c
  | _ => false
  end.

Definition isToken (t : jsstring) : bool :=
  isIdentifier t || isNumber t || isOperatorRun t || isPunctuation t.

(** Every white-space unit is a space, and no two of them are next to
    each other; [afterSpace] tells whether the unit before [s] was one. *)
Fixpoint packed (afterSpace : bool) (s : jsstring) : bool :=
  match s with
  | [] => true
  | c :: s' =>
    if isSpace c then (c =? 32) && negb afterSpace && packed true s'
    else packed false s'
  end.

(** The messages of [checkStructure], in the order of its rules. *)
Definition ruleMessages : list jsstring :=
  [js "Missing main() function";
   js "Missing #include <stdio.h>";
   js "Unbalanced braces";
   js "Problem requires switch statement";
   js "Use modulo operator (%) for even/odd check";
   js "Use fgets() instead of gets()"].


End Notions.
Export Notions.

(** ** The page

    [App.tsx]: what the Run button does with the same collaborators. *)
Module App.

(** [{ stdout, stderr }], the value of the state variable [runOutput]. *)
Record Output : Type := { stdout : jsstring; stderr : jsstring }.

(** The state variables that [handleRun] sets. *)
Record View : Type := {
  isRunning : bool;
  runOutput : option Output;
  expectedOutput : option jsstring
}.

Definition setIsRunning (b : bool) (v : View) : View :=
  {| isRunning := b; runOutput := runOutput v; expectedOutput := expectedOutput v |}.

Definition setRunOutput (o : option Output) (v : View) : View :=
  {| isRunning := isRunning v; runOutput := o; expectedOutput := expectedOutput v |}.

Definition setExpectedOutput (e : option jsstring) (v : View) : View :=
  {| isRunning := isRunning v; runOutput := runOutput v; expectedOutput := e |}.

Section Handlers.

(** The store as [getStoredProblems()] returns it, seeded when the page
    was mounted, its lookup, and [await runCCode(code, stdin)]. *)
Variable problems : list Problems.ProblemEntry.
Variable findMatchingProblem :
  jsstring -> list Problems.ProblemEntry -> option Problems.ProblemEntry.
Variable execute : jsstring -> jsstring -> RunResult.

Definition handleRun (problem code : jsstring) (v : View) : View :=
  let v := setIsRunning true v in
  let v := setRunOutput None v in
  let v := setExpectedOutput None v in
  let matched := findMatchingProblem problem problems in
  let stdin := default [] (matched ≫= Problems.stdin) in
  let result := execute code stdin in
  let v :=
    setRunOutput (Some {| stdout := RunCode.stdout result;
                          stderr := RunCode.stderr result |}) v in
  let v :=
    match matched ≫= Problems.expectedOutput with
    | Some ((_ :: _) as expected) => setExpectedOutput (Some expected) v
    | _ => v
    end in
  setIsRunning false v.

End Handlers.

End App.

(** ** The heuristic validator

    The earlier [validateCCode(code)], which looks at the text of the
    submission only. *)
Module Heuristics.

Record ValidationResult : Type := {
  score : Z;
  mistakes : list jsstring;
  summary : jsstring
}.

(** [/\bmain\s*\([^)]*\)\s*\{/] at one position *)
Definition mainDefinition (prev : option N) (s : jsstring) : bool :=
  wordStart prev &&
  match after (js "main") s with
  | Some r =>
    match dropWhile isSpace r with
    | c :: r1 =>
      (c =? 40) &&
      match dropWhile (fun x => negb (x =? 41)) r1 with
      | _ :: r2 => headIs 123 (dropWhile isSpace r2)
      | [] => false
      end
    | [] => false
    end
  | None => false
  end.

(** [/return\s+0\s*;/] at one position *)
Definition returnZero (_ : option N) (s : jsstring) : bool :=
  match after (js "return") s with
  | Some r =>
    headIs 48 (dropWhile isSpace r)
    && negb (run isSpace r =? 0)%nat
    && headIs 59 (dropWhile isSpace (drop 1 (dropWhile isSpace r)))
  | None => false
  end.

(** [/return\s+[^0]/] at one position: the white space can be given
    back unit by unit, down to one unit, until what follows it is not
    [0]. *)
Definition returnOther (_ : option N) (s : jsstring) : bool :=
  match after (js "return") s with
  | Some r =>
    existsb (fun k => match drop k r with
                      | c :: _ => negb (c =? 48)
                      | [] => false
                      end)
            (seq 1 (run isSpace r))
  | None => false
  end.

(** [/gets\s*\(/] at one position *)
Definition getsCall (_ : option N) (s : jsstring) : bool :=
  match after (js "gets") s with
  | Some r => headIs 40 (dropWhile isSpace r)
  | None => false
  end.

(** [/\bint\s+\w+\s*;/] at one position *)
Definition intDeclaration (prev : option N) (s : jsstring) : bool :=
  wordStart prev &&
  match after (js "int") s with
  | Some r =>
    let name := dropWhile isSpace r in
    negb (run isSpace r =? 0)%nat
    && negb (run isWord name =? 0)%nat
    && headIs 59 (dropWhile isSpace (dropWhile isWord name))
  | None => false
  end.

(** [if (violated) { mistakes.push(message); score -= points }] *)
Definition rule (violated : bool) (message : jsstring) (points : Z)
           (acc : list jsstring * Z) : list jsstring * Z :=
  if violated then (acc.1 ++ [message], (acc.2 - points)%Z) else acc.

Definition validateCCode (code : jsstring) : ValidationResult :=
  let acc : list jsstring * Z := ([], 100%Z) in
  let lines := List.filter (fun l => negb (isEmpty (trim l))) (split 10 code) in
  let trimmedCode := trim code in
  if isEmpty trimmedCode then
    {| score := 0;
       mistakes := [js "No code provided"];
       summary := js "Please write your C solution in the code editor above." |}
  else
    let acc :=
      rule (negb (test (callOf (js "main")) None code))
        (js "Missing main() function - C programs must have an entry point")
        25 acc in
    let usesPrintf := test (callOf (js "printf")) None code in
    let usesScanf := test (callOf (js "scanf")) None code in
    let acc :=
      rule ((usesPrintf || usesScanf) && negb (test includeStdio None code))
        (js "Missing #include <stdio.h> when using printf/scanf")
        15 acc in
    let hasMain := test mainDefinition None code in
    let acc :=
      rule (hasMain && negb (test returnZero None code)
            && negb (test returnOther None code))
        (js "Consider adding " ++ quote ++ js "return 0;" ++ quote
           ++ js " at the end of main()")
        5 acc in
    let openBraces := countUnit 123 code in
    let closeBraces := countUnit 125 code in
    let acc :=
      rule (negb (openBraces =? closeBraces)%nat)
        (js "Unbalanced braces: " ++ numberToString (Z.of_nat openBraces)
           ++ js " opening vs " ++ numberToString (Z.of_nat closeBraces)
           ++ js " closing")
        20 acc in
    let acc :=
      rule (test getsCall None code)
        (js "Avoid gets() - use fgets() instead (gets is unsafe)")
        15 acc in
    let acc :=
      rule (test intDeclaration None code
            && (length lines <? 5)%nat && (length lines <=? 3)%nat)
        (js "Code appears incomplete - ensure all logic is implemented")
        10 acc in
    let score := Z.max 0 (Z.min 100 acc.2) in
    let summary :=
      if (80 <=? score)%Z
      then js "Good job! Your code has a solid structure."
      else if (50 <=? score)%Z
      then js "Your code has some issues. Review the mistakes below."
      else js "Several improvements needed. Focus on the main mistakes." in
    {| score := score;
       mistakes :=
         if isEmpty acc.1 then [js "No major mistakes detected"] else acc.1;
       summary := summary |}.

End Heuristics.

(** ** Facts: taking elements off the ends of a list *)
Section Ends.
Context {A : Type} (f : A -> bool).

Lemma dropWhile_length (l : list A) : (length (dropWhile f l) <= length l)%nat.
Proof. induction l as [|x l IH]; simpl; [lia|]. destruct (f x); simpl; lia. Qed.

(** [dropWhile f l = l] says that [l] does not start with an element
    satisfying [f]. *)
Lemma dropWhile_fixed (l : list A) :
  dropWhile f l = l <-> match l with x :: _ => f x = false | [] => True end.
Proof.
  destruct l as [|x l]; simpl; [tauto|]. destruct (f x) eqn:E; split; try done.
  intros H. pose proof (dropWhile_length l) as Hl. rewrite H in Hl. simpl in Hl. lia.
Qed.

Lemma dropWhile_idemp (l : list A) : dropWhile f (dropWhile f l) = dropWhile f l.
Proof.
  induction l as [|x l IH]; simpl; [done|]. destruct (f x) eqn:E; [done|].
  simpl. by rewrite E.
Qed.

Lemma dropWhile_app_keep (l k : list A) (x : A) :
  f x = false -> dropWhile f (l ++ x :: k) = dropWhile f l ++ x :: k.
Proof.
  intros Hx. induction l as [|y l IH]; simpl; [by rewrite Hx|].
  destruct (f y); done.
Qed.

Lemma dropWhile_suffix (l : list A) : exists a, l = a ++ dropWhile f l.
Proof.
  induction l as [|x l [a IH]]; simpl; [by exists []|].
  destruct (f x); [|by exists []]. exists (x :: a). simpl. by f_equal.
Qed.

(** [stripBoth f l] is a segment of [l]. *)
Lemma stripBoth_segment (l : list A) : exists a b, l = a ++ stripBoth f l ++ b.
Proof.
  unfold stripBoth. destruct (dropWhile_suffix l) as [a Ha].
  destruct (dropWhile_suffix (rev (dropWhile f l))) as [b Hb].
  exists a, (rev b). rewrite <- rev_app_distr, <- Hb, rev_involutive. exact Ha.
Qed.

Lemma stripBoth_Forall (P : A -> Prop) (l : list A) :
  Forall P l -> Forall P (stripBoth f l).
Proof.
  intros H. destruct (stripBoth_segment l) as (a & b & E). rewrite E in H.
  apply Forall_app in H as [_ H]. by apply Forall_app in H as [H _].
Qed.

Lemma stripBoth_start (l : list A) : dropWhile f (stripBoth f l) = stripBoth f l.
Proof.
  unfold stripBoth. pose proof (dropWhile_idemp l) as H.
  destruct (dropWhile f l) as [|x k]; [done|].
  apply dropWhile_fixed in H. simpl.
  rewrite dropWhile_app_keep by done. rewrite rev_app_distr. simpl. by rewrite H.
Qed.

Lemma stripBoth_end (l : list A) :
  dropWhile f (rev (stripBoth f l)) = rev (stripBoth f l).
Proof. unfold stripBoth. rewrite rev_involutive. apply dropWhile_idemp. Qed.

Lemma stripBoth_fixed (l : list A) :
  dropWhile f l = l -> dropWhile f (rev l) = rev l -> stripBoth f l = l.
Proof. intros H1 H2. unfold stripBoth. by rewrite H1, H2, rev_involutive. Qed.

Lemma stripBoth_idemp (l : list A) : stripBoth f (stripBoth f l) = stripBoth f l.
Proof. apply stripBoth_fixed; [apply stripBoth_start|apply stripBoth_end]. Qed.

End Ends.

Lemma dropWhile_map {A B} (g : A -> B) (f : B -> bool) (f' : A -> bool) (l : list A) :
  (forall x, f (g x) = f' x) ->
  dropWhile f (map g l) = map g (dropWhile f' l).
Proof.
  intros H. induction l as [|x l IH]; simpl; [done|]. rewrite H.
  destruct (f' x); done.
Qed.

(** ** Facts: lines *)
Section Lines.

Lemma split_cons (c : N) (s : jsstring) :
  split 10 (c :: s)
  = if c =? 10 then [] :: split 10 s
    else (c :: hd [] (split 10 s)) :: tl (split 10 s).
Proof. simpl. destruct (c =? 10); [done|]. destruct (split 10 s); done. Qed.

Lemma split_nonempty (s : jsstring) : split 10 s <> [].
Proof.
  destruct s as [|c s]; [done|]. rewrite split_cons. destruct (c =? 10); done.
Qed.

Lemma split_hd_tl (s : jsstring) :
  split 10 s = hd [] (split 10 s) :: tl (split 10 s).
Proof. pose proof (split_nonempty s). destruct (split 10 s); done. Qed.

Lemma split_Forall (P : N -> Prop) (s : jsstring) :
  Forall P s -> Forall (Forall P) (split 10 s).
Proof.
  induction s as [|c s IH]; intros H.
  - repeat constructor.
  - apply Forall_cons in H as [Hc Hs]. specialize (IH Hs).
    rewrite split_cons. rewrite (split_hd_tl s) in IH.
    apply Forall_cons in IH as [Hh Ht].
    destruct (c =? 10); repeat constructor; try done.
    rewrite (split_hd_tl s). by constructor.
Qed.

Lemma split_no_break (s : jsstring) :
  Forall (Forall (fun c => c <> 10)) (split 10 s).
Proof.
  induction s as [|c s IH]; [repeat constructor|].
  rewrite split_cons. rewrite (split_hd_tl s) in IH.
  apply Forall_cons in IH as [Hh Ht].
  destruct (N.eqb_spec c 10); repeat constructor; try done.
  rewrite (split_hd_tl s). by constructor.
Qed.

Lemma join_cons (l : jsstring) (ls : list jsstring) :
  ls <> [] -> join [10] (l :: ls) = l ++ 10 :: join [10] ls.
Proof. destruct ls; done. Qed.

Lemma join_Forall (P : N -> Prop) (ls : list jsstring) :
  P 10 -> Forall (Forall P) ls -> Forall P (join [10] ls).
Proof.
  intros H10. induction ls as [|l ls IH]; intros H; [constructor|].
  apply Forall_cons in H as [Hl Hls].
  destruct ls as [|l' ls']; [done|]. rewrite join_cons by done.
  apply Forall_app. split; [done|]. constructor; [done|]. by apply IH.
Qed.

Lemma split_line (l : jsstring) :
  Forall (fun c => c <> 10) l -> split 10 l = [l].
Proof.
  induction l as [|c l IH]; intros H; [done|].
  apply Forall_cons in H as [Hc Hl]. rewrite split_cons, (IH Hl).
  by apply N.eqb_neq in Hc as ->.
Qed.

Lemma split_app_break (l r : jsstring) :
  Forall (fun c => c <> 10) l -> split 10 (l ++ 10 :: r) = l :: split 10 r.
Proof.
  induction l as [|c l IH]; intros H; [done|].
  apply Forall_cons in H as [Hc Hl].
  change ((c :: l) ++ 10 :: r) with (c :: (l ++ 10 :: r)).
  rewrite split_cons, (IH Hl). by apply N.eqb_neq in Hc as ->.
Qed.

Lemma split_join (ls : list jsstring) :
  ls <> [] -> Forall (Forall (fun c => c <> 10)) ls ->
  split 10 (join [10] ls) = ls.
Proof.
  induction ls as [|l ls IH]; [done|]. intros _ H.
  apply Forall_cons in H as [Hl Hls].
  destruct ls as [|l' ls']; [by apply split_line|].
  rewrite join_cons by done. rewrite split_app_break by done.
  f_equal. by apply IH.
Qed.

Lemma join_snoc (ls : list jsstring) (l : jsstring) :
  ls <> [] -> join [10] (ls ++ [l]) = join [10] ls ++ 10 :: l.
Proof.
  induction ls as [|l0 ls IH]; [done|]. intros _.
  destruct ls as [|l1 ls']; [done|].
  change ((l0 :: l1 :: ls') ++ [l]) with (l0 :: ((l1 :: ls') ++ [l])).
  rewrite join_cons by done. rewrite IH by done.
  rewrite (join_cons l0) by done. by rewrite <- app_assoc.
Qed.

Lemma join_rev (ls : list jsstring) :
  rev (join [10] ls) = join [10] (rev (map (@rev N) ls)).
Proof.
  induction ls as [|l ls IH]; [done|].
  destruct ls as [|l' ls']; [done|].
  rewrite join_cons by done. rewrite rev_app_distr.
  change (rev (10 :: join [10] (l' :: ls')))
    with (rev (join [10] (l' :: ls')) ++ [10]).
  rewrite IH. rewrite <- app_assoc.
  change (rev (map (@rev N) (l :: l' :: ls')))
    with (rev (map (@rev N) (l' :: ls')) ++ [rev l]).
  rewrite join_snoc; [done|].
  simpl. intros H. by apply app_eq_nil in H as [_ ?].
Qed.

End Lines.

(** ** Facts: the replacements of [normalizeOutput] *)
Section Replacements.

Lemma replaceAll_Forall (P : N -> Prop) (p : Pattern) (rep s : jsstring) (k : nat) :
  Forall P rep -> Forall P s -> Forall P (replaceAll p rep k s).
Proof.
  intros Hrep. revert k. induction s as [|c s IH]; intros k H; [constructor|].
  apply Forall_cons in H as [Hc Hs]. simpl.
  destruct k; [|by apply IH]. destruct (p (c :: s)).
  - constructor; [done|]. by apply IH.
  - apply Forall_app. split; [done|]. by apply IH.
Qed.

Lemma replaceAll_cons (p : Pattern) (rep : jsstring) (c : N) (s : jsstring) :
  replaceAll p rep 0 (c :: s)
  = match p (c :: s) with
    | O => c :: replaceAll p rep 0 s
    | S k => rep ++ replaceAll p rep k s
    end.
Proof. reflexivity. Qed.

Lemma crlf_cons (c : N) (s : jsstring) :
  crlf (c :: s) = if (c =? 13) && headIs 10 s then 2%nat else 0%nat.
Proof. reflexivity. Qed.

Lemma cr_cons (c : N) (s : jsstring) :
  cr (c :: s) = if c =? 13 then 1%nat else 0%nat.
Proof. reflexivity. Qed.

Lemma replaceAll_crlf_fixed (s : jsstring) :
  Forall (fun c => c <> 13) s -> replaceAll crlf [10] 0 s = s.
Proof.
  induction s as [|c s IH]; intros H; [done|].
  apply Forall_cons in H as [Hc Hs]. rewrite replaceAll_cons, crlf_cons.
  apply N.eqb_neq in Hc as ->. simpl andb. cbv iota. by rewrite IH.
Qed.

Lemma replaceAll_cr_fixed (s : jsstring) :
  Forall (fun c => c <> 13) s -> replaceAll cr [10] 0 s = s.
Proof.
  induction s as [|c s IH]; intros H; [done|].
  apply Forall_cons in H as [Hc Hs]. rewrite replaceAll_cons, cr_cons.
  apply N.eqb_neq in Hc as ->. by rewrite IH.
Qed.

Lemma replaceAll_cr_clears (s : jsstring) :
  Forall (fun c => c <> 13) (replaceAll cr [10] 0 s).
Proof.
  induction s as [|c s IH]; [constructor|]. rewrite replaceAll_cons, cr_cons.
  destruct (N.eqb_spec c 13); simpl; constructor; done.
Qed.

Lemma run_cons (f : N -> bool) (c : N) (s : jsstring) :
  run f (c :: s) = if f c then S (run f s) else 0%nat.
Proof. unfold run. simpl. destruct (f c); done. Qed.

Lemma squeezed_weaken (b : bool) (s : jsstring) :
  squeezed true s = true -> squeezed b s = true.
Proof.
  destruct s as [|c s]; [done|]. simpl. destruct (isBlank c); [|done].
  rewrite andb_false_r. done.
Qed.

Lemma squeezed_run (s : jsstring) : squeezed true s = true -> run isBlank s = 0%nat.
Proof.
  destruct s as [|c s]; [done|]. rewrite run_cons. simpl.
  destruct (isBlank c); [|done]. rewrite andb_false_r. done.
Qed.

Lemma blanks_cons (c : N) (s : jsstring) :
  blanks (c :: s) = if isBlank c then S (run isBlank s) else 0%nat.
Proof. apply run_cons. Qed.

(** Collapsing the runs of blanks leaves no tab and no two blanks in a
    row. *)
Lemma replaceAll_blanks_squeezed (s : jsstring) :
  squeezed true (replaceAll blanks [32] (run isBlank s) s) = true
  /\ squeezed false (replaceAll blanks [32] 0 s) = true.
Proof.
  induction s as [|c s [IH1 IH2]]; [done|].
  rewrite replaceAll_cons, !blanks_cons.
  destruct (isBlank c) eqn:Ec.
  - split; [exact IH1|]. simpl. by rewrite IH1.
  - rewrite replaceAll_cons, blanks_cons, Ec. simpl. by rewrite Ec.
Qed.

Lemma replaceAll_blanks_fixed (s : jsstring) :
  squeezed false s = true -> replaceAll blanks [32] 0 s = s.
Proof.
  induction s as [|c s IH]; intros H; [done|].
  simpl in H. rewrite replaceAll_cons, blanks_cons.
  destruct (isBlank c) eqn:Ec.
  - apply andb_prop in H as [H1 H2]. apply andb_prop in H1 as [H1 _].
    apply N.eqb_eq in H1 as ->. rewrite (squeezed_run s H2). simpl.
    f_equal. apply IH. by apply squeezed_weaken.
  - f_equal. by apply IH.
Qed.

Lemma squeezed_app (b : bool) (x y : jsstring) :
  squeezed b (x ++ y) = true -> squeezed b x = true /\ squeezed false y = true.
Proof.
  revert b. induction x as [|c x IH]; intros b H.
  - split; [done|]. destruct b; [by apply squeezed_weaken|done].
  - simpl in *. destruct (isBlank c).
    + apply andb_prop in H as [H1 H2]. apply IH in H2 as [H2 H3].
      by rewrite H1, H2.
    + by apply IH.
Qed.

Lemma squeezed_segment (a s b : jsstring) :
  squeezed false (a ++ s ++ b) = true -> squeezed false s = true.
Proof.
  intros H. apply squeezed_app in H as [_ H]. by apply squeezed_app in H as [H _].
Qed.

Lemma squeezed_app_break (b : bool) (x y : jsstring) :
  squeezed b x = true -> squeezed false y = true ->
  squeezed b (x ++ 10 :: y) = true.
Proof.
  revert b. induction x as [|c x IH]; intros b Hx Hy; [done|].
  simpl in *. destruct (isBlank c).
  - apply andb_prop in Hx as [H1 H2]. rewrite H1. by apply IH.
  - by apply IH.
Qed.

Lemma squeezed_join (ls : list jsstring) :
  Forall (fun l => squeezed false l = true) ls ->
  squeezed false (join [10] ls) = true.
Proof.
  induction ls as [|l ls IH]; intros H; [done|].
  apply Forall_cons in H as [Hl Hls].
  destruct ls as [|l' ls']; [done|]. rewrite join_cons by done.
  apply squeezed_app_break; [done|]. by apply IH.
Qed.

Lemma squeezed_split (b : bool) (s : jsstring) :
  squeezed b s = true ->
  squeezed b (hd [] (split 10 s)) = true
  /\ Forall (fun l => squeezed false l = true) (tl (split 10 s)).
Proof.
  revert b. induction s as [|c s IH]; intros b H; [by split|].
  rewrite split_cons. destruct (N.eqb_spec c 10) as [->|Hc].
  - simpl in H. apply IH in H as [H1 H2]. split; [done|]. simpl.
    rewrite (split_hd_tl s). by constructor.
  - simpl hd. simpl tl. simpl in *. destruct (isBlank c).
    + apply andb_prop in H as [H1 H2]. apply IH in H2 as [H2 H3]. by rewrite H1, H2.
    + by apply IH.
Qed.

Lemma squeezed_lines (s : jsstring) :
  squeezed false s = true ->
  Forall (fun l => squeezed false l = true) (split 10 s).
Proof.
  intros H. apply squeezed_split in H as [H1 H2].
  rewrite (split_hd_tl s). by constructor.
Qed.

End Replacements.

(** ** Facts: [normalizeOutput] *)
Section NormalizeOutput.

Lemma isEmpty_rev (l : jsstring) : isEmpty (rev l) = isEmpty l.
Proof. unfold isEmpty. by rewrite length_rev. Qed.

(** Trimming the front of joined lines that do not start with white
    space takes off the empty lines in front. *)
Lemma trimStart_join (ls : list jsstring) :
  Forall (fun l => dropWhile isSpace l = l) ls ->
  dropWhile isSpace (join [10] ls) = join [10] (dropWhile isEmpty ls).
Proof.
  induction ls as [|l ls IH]; intros H; [done|].
  apply Forall_cons in H as [Hl Hls]. specialize (IH Hls).
  destruct l as [|c l].
  - destruct ls as [|l' ls']; [done|]. rewrite join_cons by done. exact IH.
  - apply dropWhile_fixed in Hl.
    change (dropWhile isEmpty ((c :: l) :: ls)) with ((c :: l) :: ls).
    apply dropWhile_fixed. destruct ls; [done|]. by rewrite join_cons.
Qed.

Lemma trimEnd_join (ls : list jsstring) :
  Forall (fun l => dropWhile isSpace (rev l) = rev l) ls ->
  rev (dropWhile isSpace (rev (join [10] ls)))
  = join [10] (rev (dropWhile isEmpty (rev ls))).
Proof.
  intros H. rewrite join_rev, trimStart_join.
  - rewrite join_rev. f_equal. rewrite <- (map_rev (@rev N) ls).
    rewrite (dropWhile_map (@rev N) isEmpty isEmpty) by apply isEmpty_rev.
    rewrite map_map. f_equal.
    rewrite (map_ext _ id) by apply rev_involutive. apply map_id.
  - apply Forall_rev. by apply Forall_map.
Qed.

Lemma trim_join (ls : list jsstring) :
  Forall (fun l => dropWhile isSpace l = l) ls ->
  Forall (fun l => dropWhile isSpace (rev l) = rev l) ls ->
  trim (join [10] ls) = join [10] (stripBoth isEmpty ls).
Proof.
  intros Hs He. unfold trim, stripBoth at 1. rewrite trimStart_join by done.
  apply trimEnd_join.
  destruct (dropWhile_suffix isEmpty ls) as [a Ha]. rewrite Ha in He.
  by apply Forall_app in He as [_ He].
Qed.

Lemma normalLine_trim (l : jsstring) :
  Forall (fun c => c <> 13) l -> Forall (fun c => c <> 10) l ->
  squeezed false l = true -> normalLine (trim l).
Proof.
  intros H13 H10 Hsq. unfold normalLine, trim.
  split; [by apply stripBoth_Forall|]. split; [by apply stripBoth_Forall|].
  split; [|split; [apply stripBoth_start|apply stripBoth_end]].
  destruct (stripBoth_segment isSpace l) as (a & b & E). rewrite E in Hsq.
  by apply squeezed_segment in Hsq.
Qed.

(** The output of [normalizeOutput] is made of normal lines. *)
Lemma normalizeOutput_shape (s : jsstring) :
  exists ls, normalLines ls /\ normalizeOutput s = join [10] ls.
Proof.
  unfold normalizeOutput.
  set (b := replaceAll cr [10] 0 (replaceAll crlf [10] 0 s)).
  set (c := replaceAll blanks [32] 0 b).
  assert (Forall normalLine (map trim (split 10 c))) as Hlines.
  { apply Forall_map.
    assert (Forall (fun x => x <> 13) c) as H13.
    { apply replaceAll_Forall; [by repeat constructor|apply replaceAll_cr_clears]. }
    pose proof (split_Forall _ c H13) as H1.
    pose proof (split_no_break c) as H2.
    pose proof (squeezed_lines c (proj2 (replaceAll_blanks_squeezed b))) as H3.
    rewrite Forall_forall in H1, H2, H3. apply Forall_forall. intros l Hl.
    apply normalLine_trim; auto. }
  exists (stripBoth isEmpty (map trim (split 10 c))). split.
  - split; [by apply stripBoth_Forall|apply stripBoth_idemp].
  - apply trim_join; eapply Forall_impl; try exact Hlines;
      unfold normalLine; tauto.
Qed.

(** Normal lines, joined, are a fixed point of [normalizeOutput]. *)
Lemma normalizeOutput_fixed (ls : list jsstring) :
  normalLines ls -> normalizeOutput (join [10] ls) = join [10] ls.
Proof.
  intros [Hlines Hends]. destruct ls as [|l0 ls0]; [done|].
  set (ls := l0 :: ls0) in *.
  assert (Forall (fun c => c <> 13) (join [10] ls)) as H13.
  { apply join_Forall; [done|]. eapply Forall_impl; [exact Hlines|].
    unfold normalLine; tauto. }
  assert (squeezed false (join [10] ls) = true) as Hsq.
  { apply squeezed_join. eapply Forall_impl; [exact Hlines|].
    unfold normalLine; tauto. }
  unfold normalizeOutput.
  rewrite replaceAll_crlf_fixed, replaceAll_cr_fixed, replaceAll_blanks_fixed by done.
  rewrite split_join; [|done|].
  2:{ eapply Forall_impl; [exact Hlines|]. unfold normalLine; tauto. }
  assert (map trim ls = ls) as ->.
  { rewrite <- (map_id ls) at 2. apply map_ext_Forall.
    eapply Forall_impl; [exact Hlines|]. intros l (_ & _ & _ & Hs & He).
    by apply stripBoth_fixed. }
  rewrite trim_join, Hends; [done| |];
    eapply Forall_impl; try exact Hlines; unfold normalLine; tauto.
Qed.

(** C9.  [normalizeOutput] is idempotent. *)
Theorem normalizeOutput_idempotent (s : jsstring) :
  normalizeOutput (normalizeOutput s) = normalizeOutput s.
Proof.
  destruct (normalizeOutput_shape s) as (ls & Hls & ->).
  by apply normalizeOutput_fixed.
Qed.

End NormalizeOutput.

(** ** Facts: numbers *)
Section NumberFacts.
Local Open Scope Q_scope.

Context {arith : Binary64}.

Lemma fl_0 : fl 0 == 0.
Proof. by apply (fl_integer 0). Qed.

Lemma fl_1 : fl 1 == 1.
Proof. by apply (fl_integer 1). Qed.

Lemma fl_60 : fl 60 == 60.
Proof. by apply (fl_integer 60). Qed.

Lemma fl_nonneg (x : Q) : 0 <= x -> 0 <= fl x.
Proof.
  intros Hx. apply Qle_trans with (fl 0); [rewrite fl_0; apply Qle_refl|].
  by apply fl_monotone.
Qed.

Lemma number_nonneg n : 0 <= number n.
Proof. unfold number. rewrite <- (Zle_Qle 0). lia. Qed.

Lemma number_pos n : (0 < n)%nat -> 0 < number n.
Proof. intros H. unfold number. rewrite <- (Zlt_Qlt 0). lia. Qed.

Lemma number_le m n : (m <= n)%nat -> number m <= number n.
Proof. intros H. unfold number. rewrite <- Zle_Qle. lia. Qed.

Lemma ratio_bounds m u :
  (m <= u)%nat -> (0 < u)%nat -> 0 <= div (number m) (number u) <= 1.
Proof.
  intros Hm Hu. unfold div. split.
  - apply fl_nonneg.
    apply Qle_shift_div_l; [by apply number_pos|]. rewrite Qmult_0_l. apply number_nonneg.
  - apply Qle_trans with (fl 1); [|rewrite fl_1; apply Qle_refl]. apply fl_monotone.
    apply Qle_shift_div_r; [by apply number_pos|]. rewrite Qmult_1_l. by apply number_le.
Qed.

Lemma ratio_self u : (0 < u)%nat -> div (number u) (number u) == 1.
Proof.
  intros Hu. unfold div. transitivity (fl 1); [|apply fl_1]. apply fl_compat.
  apply Qmult_inv_r. intros E.
  pose proof (number_pos u Hu) as Hp. rewrite E in Hp. by apply Qlt_irrefl in Hp.
Qed.

Lemma ratio_zero u : div (number 0) (number u) == 0.
Proof.
  unfold div. transitivity (fl 0); [|apply fl_0]. apply fl_compat.
  unfold Qdiv. apply Qmult_0_l.
Qed.

Lemma Math_round_nonneg (x : Q) : 0 <= x -> (0 <= Math_round x)%Z.
Proof.
  intros Hx. unfold Math_round. change 0%Z with (Qfloor 0).
  apply Qfloor_resp_le.
  apply Qle_trans with x; [exact Hx|].
  rewrite <- (Qplus_0_r x) at 1. apply Qplus_le_r. discriminate.
Qed.

Lemma Math_round_one_times_60 (x : Q) : x == 1 -> Math_round (mul x 60) = 60%Z.
Proof.
  intros Hx. unfold Math_round, mul.
  assert (fl (x * 60) == 60) as ->; [|reflexivity].
  transitivity (fl 60); [|apply fl_60]. apply fl_compat. rewrite Hx. reflexivity.
Qed.

End NumberFacts.

(** ** Facts: the tokenizer *)
Section TokenFacts.

Lemma takeWhile_Forall (f : N -> bool) (s : jsstring) :
  Forall (fun c => f c = true) (takeWhile f s).
Proof.
  induction s as [|c s IH]; simpl; [constructor|].
  destruct (f c) eqn:E; by constructor.
Qed.

Lemma take_run (f : N -> bool) (s : jsstring) :
  take (run f s) s = takeWhile f s.
Proof.
  unfold run. induction s as [|c s IH]; simpl; [done|].
  destruct (f c); simpl; [by rewrite IH|done].
Qed.

Lemma matchAll_Forall (P : jsstring -> Prop) (p : Pattern) (s : jsstring) (k : nat) :
  (forall t n, p t = S n -> P (take (S n) t)) ->
  Forall P (matchAll p k s).
Proof.
  intros Hp. revert k. induction s as [|c s IH]; intros k; simpl; [constructor|].
  destruct k; [|apply IH]. destruct (p (c :: s)) eqn:E; [apply IH|].
  constructor; [|apply IH]. by apply (Hp (c :: s)).
Qed.

Ltac unit_range :=
  cbn [existsb];
  rewrite ?orb_true_iff, ?andb_true_iff, ?N.leb_le, ?N.eqb_eq; lia.

Lemma isWord_ascii (c : N) : isWord c = true -> c < 128.
Proof. unfold isWord, isIdentStart, isDigit. unit_range. Qed.

Lemma isOperator_ascii (c : N) : isOperator c = true -> c < 128.
Proof. unfold isOperator. unit_range. Qed.

Lemma isPunct_ascii (c : N) : isPunct c = true -> c < 128.
Proof. unfold isPunct. unit_range. Qed.

Lemma tokenPattern_ascii (t : jsstring) (n : nat) :
  tokenPattern t = S n -> Forall (fun c => c < 128) (take (S n) t).
Proof.
  unfold tokenPattern, identifier, punctuation.
  destruct t as [|c r]; [done|].
  destruct (isIdentStart c) eqn:Eid.
  { intros [= <-]. simpl. rewrite take_run. constructor.
    - apply isWord_ascii. unfold isWord. by rewrite Eid.
    - eapply Forall_impl; [apply takeWhile_Forall|]. apply isWord_ascii. }
  destruct (run isDigit (c :: r)) eqn:Ed.
  2:{ intros [= <-]. rewrite <- Ed, take_run.
      eapply Forall_impl; [apply takeWhile_Forall|].
      intros x Hx. apply isWord_ascii. unfold isWord. rewrite Hx. apply orb_true_r. }
  destruct (run isOperator (c :: r)) eqn:Eo.
  2:{ intros [= <-]. rewrite <- Eo, take_run.
      eapply Forall_impl; [apply takeWhile_Forall|]. apply isOperator_ascii. }
  destruct (isPunct c) eqn:Ep; [|done].
  intros [= <-]. simpl. rewrite take_0. constructor; [|constructor].
  by apply isPunct_ascii.
Qed.

(** Every token is made of ASCII units, on which [toLowerCase] is
    [asciiToLowerCase]. *)
Lemma getTokens_ascii (code : jsstring) :
  Forall (Forall (fun c => c < 128)) (getTokens code).
Proof. apply matchAll_Forall, tokenPattern_ascii. Qed.

End TokenFacts.

(** ** Facts: the similarity scorer *)
Section SimilarityFacts.
Local Open Scope Q_scope.

Context {arith : Binary64}.
Variable toLowerCase : jsstring -> jsstring.

Local Abbreviation lowered := (Spec.lowered toLowerCase).

Lemma count_foldl (P : jsstring -> bool) (l : list jsstring) (k : nat) :
  foldl (fun n t => if P t then S n else n) k l
  = (k + length (filter (fun t => P t = true) l))%nat.
Proof.
  revert k. induction l as [|t l IH]; intros k; simpl.
  - lia.
  - rewrite IH. rewrite filter_cons. destruct (P t) eqn:E.
    + rewrite decide_True by done. simpl. lia.
    + rewrite decide_False by congruence. lia.
Qed.

Lemma matches_size (A B : gset jsstring) :
  foldl (fun n t => if bool_decide (t ∈ B) then S n else n) 0%nat (elements A)
  = size (A ∩ B).
Proof.
  rewrite (count_foldl (fun t => bool_decide (t ∈ B))). simpl.
  unfold size, set_size. simpl. apply Permutation_length, NoDup_Permutation.
  - apply NoDup_filter, NoDup_elements.
  - apply NoDup_elements.
  - intros x. rewrite list_elem_of_filter, !elem_of_elements, elem_of_intersection.
    rewrite bool_decide_eq_true. tauto.
Qed.

Lemma union_elements (A B : gset jsstring) :
  list_to_set (elements A ++ elements B) = A ∪ B.
Proof. by rewrite list_to_set_app_L, !list_to_set_elements_L. Qed.

Lemma lowered_nonempty (a : list jsstring) : a ≠ [] -> (0 < size (lowered a))%nat.
Proof.
  destruct a as [|t a]; [done|]. intros _.
  assert (size (lowered (t :: a)) ≠ 0%nat); [|lia].
  apply size_non_empty_iff. intros H.
  apply (not_elem_of_empty (C:=gset jsstring) (toLowerCase t)).
  rewrite <- H. unfold lowered. simpl. apply elem_of_union_l, elem_of_singleton.
  reflexivity.
Qed.

Lemma tokenSimilarity_nonempty (a b : list jsstring) :
  a ≠ [] -> b ≠ [] ->
  tokenSimilarity toLowerCase a b = jaccard (lowered a) (lowered b).
Proof.
  intros Ha Hb. unfold tokenSimilarity.
  destruct a; [done|]. destruct b; [done|]. simpl length. simpl andb. simpl orb.
  cbv iota. rewrite matches_size, union_elements. reflexivity.
Qed.

Lemma jaccard_bounds (A B : gset jsstring) :
  (0 < size A)%nat -> 0 <= jaccard A B <= 1.
Proof.
  intros HA. apply ratio_bounds.
  - apply subseteq_size. etrans; [apply intersection_subseteq_l|apply union_subseteq_l].
  - pose proof (subseteq_size A (A ∪ B) (union_subseteq_l A B)). lia.
Qed.

Lemma tokenSimilarity_bounds (a b : list jsstring) :
  0 <= tokenSimilarity toLowerCase a b <= 1.
Proof.
  destruct a as [|t a]; [destruct b; by vm_compute|].
  destruct b as [|t' b]; [by vm_compute|].
  rewrite tokenSimilarity_nonempty by done.
  apply jaccard_bounds. by apply lowered_nonempty.
Qed.

Lemma tokenSimilarity_self_nonempty (t : jsstring) (a : list jsstring) :
  tokenSimilarity toLowerCase (t :: a) (t :: a) == 1.
Proof.
  rewrite tokenSimilarity_nonempty by done. unfold jaccard.
  rewrite intersection_idemp_L, union_idemp_L.
  apply ratio_self. by apply lowered_nonempty.
Qed.

Lemma tokenSimilarity_self (a : list jsstring) :
  tokenSimilarity toLowerCase a a == 1.
Proof. destruct a; [reflexivity | apply tokenSimilarity_self_nonempty]. Qed.

(** C6.  [tokenSimilarity] is the Jaccard similarity of the two sets of
    lowercased tokens, intersection size divided by union size as a
    number (except that two empty lists score 1), lies in
    [[0,1]], is 1 on two empty lists, 0 when exactly one list is empty,
    and 1 on a non-empty list compared with itself. *)
Theorem tokenSimilarity_is_jaccard (a b : list jsstring) :
  tokenSimilarity toLowerCase a b
    == (if isEmpty a && isEmpty b then 1 else jaccard (lowered a) (lowered b))
  /\ 0 <= tokenSimilarity toLowerCase a b <= 1
  /\ tokenSimilarity toLowerCase [] [] == 1
  /\ (forall t c, tokenSimilarity toLowerCase [] (t :: c) == 0
                  /\ tokenSimilarity toLowerCase (t :: c) [] == 0)
  /\ (forall t c, tokenSimilarity toLowerCase (t :: c) (t :: c) == 1).
Proof.
  split; [|split; [apply tokenSimilarity_bounds|split; [reflexivity|split]]].
  - destruct a as [|t a], b as [|t' b]; simpl.
    + reflexivity.
    + unfold jaccard. change (lowered []) with (∅ : gset jsstring).
      rewrite intersection_empty_l_L, size_empty. symmetry. apply ratio_zero.
    + unfold jaccard. change (lowered []) with (∅ : gset jsstring).
      rewrite intersection_empty_r_L, size_empty. symmetry. apply ratio_zero.
    + by rewrite tokenSimilarity_nonempty.
  - intros t c. split; reflexivity.
  - apply tokenSimilarity_self_nonempty.
Qed.

End SimilarityFacts.

(** ** Facts: the structural checker *)
Section StructureFacts.
Local Open Scope Z_scope.

Lemma test_mono (f g : option N -> jsstring -> bool) (prev : option N) (s : jsstring) :
  (forall p t, f p t = true -> g p t = true) ->
  test f prev s = true -> test g prev s = true.
Proof.
  intros Hfg. revert prev. induction s as [|c s IH]; intros prev; simpl.
  - rewrite !orb_false_r. apply Hfg.
  - intros H. apply orb_prop in H as [H|H]; apply orb_true_intro; auto.
Qed.

Lemma modulo2_percent (prev : option N) (s : jsstring) :
  modulo2 prev s = true -> percent prev s = true.
Proof.
  destruct s as [|c s]; [done|]. simpl. intros H. by apply andb_prop in H as [H _].
Qed.

Lemma rule_penalties (violated : bool) (message : jsstring) (points : Z)
      (acc : StructureCheck.t) :
  StructureCheck.penalties (StructureCheck.rule violated message points acc)
  = StructureCheck.penalties acc + (if violated then points else 0).
Proof. destruct violated; simpl; lia. Qed.

(** The penalty is the sum of the points of the rules violated. *)
Lemma checkStructure_penalties (userCode refCode : jsstring) :
  StructureCheck.penalties (checkStructure userCode refCode)
  = (if negb (test (callOf (js "main")) None userCode) then 25 else 0)
    + (if test ioCall None refCode && negb (test includeStdio None userCode)
       then 15 else 0)
    + (if negb (countUnit 123 userCode =? countUnit 125 userCode)%nat
       then 20 else 0)
    + (if test (callOf (js "switch")) None refCode
          && negb (test (callOf (js "switch")) None userCode)
       then 15 else 0)
    + (if test modulo2 None refCode && negb (test percent None userCode)
       then 10 else 0)
    + (if test (callOf (js "fgets")) None refCode
          && test (callOf (js "gets")) None userCode
       then 10 else 0).
Proof. unfold checkStructure. cbv zeta. rewrite !rule_penalties. reflexivity. Qed.

Lemma checkStructure_penalties_nonneg (userCode refCode : jsstring) :
  0 <= StructureCheck.penalties (checkStructure userCode refCode).
Proof.
  rewrite checkStructure_penalties.
  repeat match goal with |- context [if ?b then _ else _] => destruct b end; lia.
Qed.

(** A text checked against itself: the two rules that compare the
    submission with the reference cannot fire. *)
Lemma checkStructure_self (code : jsstring) :
  StructureCheck.penalties (checkStructure code code) = 0
  <-> selfConsistent code = true.
Proof.
  rewrite checkStructure_penalties. unfold selfConsistent.
  rewrite andb_negb_r.
  assert (test modulo2 None code && negb (test percent None code) = false) as ->.
  { destruct (test modulo2 None code) eqn:E; [|done].
    by rewrite (test_mono _ _ _ _ modulo2_percent E). }
  destruct (test (callOf (js "main")) None code),
    (test ioCall None code), (test includeStdio None code),
    (countUnit 123 code =? countUnit 125 code)%nat,
    (test (callOf (js "fgets")) None code),
    (test (callOf (js "gets")) None code); simpl; split; (done || lia).
Qed.

End StructureFacts.

(** ** Facts: the score composition *)
Section ScoreFacts.
Local Open Scope Z_scope.

Context {arith : Binary64}.

Lemma composedScore_range (u r : jsstring) : 0 <= composedScore u r <= 100.
Proof.
  unfold composedScore.
  pose proof (tokenSimilarity_bounds asciiToLowerCase (getTokens u) (getTokens r)) as [H0 _].
  assert (0 <= Math_round
                 (mul (tokenSimilarity asciiToLowerCase (getTokens u) (getTokens r)) 60)).
  { apply Math_round_nonneg, fl_nonneg.
    apply Qmult_le_0_compat; [exact H0|discriminate]. }
  lia.
Qed.

Lemma compareToReference_score (u r : jsstring) :
  score (value (compareToReference u r))
  = if blankSubmission u then 0 else composedScore u r.
Proof.
  unfold compareToReference, blankSubmission.
  destruct (isEmpty (normalizeCode u)); reflexivity.
Qed.

Lemma compareToReference_calls (u r : jsstring) :
  calls (compareToReference u r)
  = if blankSubmission u then []
    else [CallTokenSimilarity (getTokens u) (getTokens r); CallCheckStructure u r].
Proof.
  unfold compareToReference, blankSubmission.
  destruct (isEmpty (normalizeCode u)); reflexivity.
Qed.

Lemma compareToReference_score_range (u r : jsstring) :
  0 <= score (value (compareToReference u r)) <= 100.
Proof.
  rewrite compareToReference_score. destruct (blankSubmission u); [lia|].
  apply composedScore_range.
Qed.

Lemma compareToReference_mistakes_nonempty (u r : jsstring) :
  mistakes (value (compareToReference u r)) <> [].
Proof.
  unfold compareToReference.
  destruct (isEmpty (normalizeCode u)); [discriminate|].
  cbn [value bind call ret mistakes].
  match goal with |- (if isEmpty ?l then _ else _) <> _ => destruct l eqn:E end;
    [discriminate|]. cbn [isEmpty length Nat.eqb]. discriminate.
Qed.

Lemma compareToReference_optional_fields (u r : jsstring) :
  userOutput (value (compareToReference u r)) = None
  /\ expectedOutput (value (compareToReference u r)) = None
  /\ outputMatched (value (compareToReference u r)) = None.
Proof.
  unfold compareToReference.
  destruct (isEmpty (normalizeCode u)); repeat split; reflexivity.
Qed.

Lemma compareToReference_analysis_of_blank (u r : jsstring) :
  blankSubmission u = true -> calls (compareToReference u r) = [].
Proof. intros H. rewrite compareToReference_calls, H. reflexivity. Qed.

(** The findings of [compareToReference], case by case. *)
Lemma compareToReference_mistakes (u r : jsstring) :
  mistakes (value (compareToReference u r))
  = if blankSubmission u then [js "No code provided"]
    else
      let structural := StructureCheck.mistakes (checkStructure u r) in
      if isEmpty structural then
        if Qltb (tokenSimilarity asciiToLowerCase (getTokens u) (getTokens r))
                (literal (3 # 10))
        then [js "Solution structure differs significantly from expected approach"]
        else if 90 <=? composedScore u r
        then [js "No major issues - good match!"]
        else [js "Review your implementation for minor improvements"]
      else structural.
Proof.
  unfold compareToReference, blankSubmission.
  destruct (isEmpty (normalizeCode u)); [reflexivity|].
  cbn [value bind call ret mistakes]. cbv zeta. fold (composedScore u r).
  destruct (StructureCheck.mistakes (checkStructure u r)) as [|m ms].
  - cbn [isEmpty length Nat.eqb andb app].
    destruct (Qltb _ _); cbn [isEmpty length Nat.eqb andb app].
    + rewrite Bool.andb_false_r. reflexivity.
    + rewrite Bool.andb_true_r. destruct (90 <=? composedScore u r); reflexivity.
  - cbn [isEmpty length Nat.eqb andb]. rewrite !Bool.andb_false_r. reflexivity.
Qed.

End ScoreFacts.

(** ** Facts: the grading orchestrator *)
Section GradingFacts.
Local Open Scope Z_scope.

Context {arith : Binary64}.

Variable problems : list Problems.ProblemEntry.
Variable findMatchingProblem :
  jsstring -> list Problems.ProblemEntry -> option Problems.ProblemEntry.
Variable execute : jsstring -> jsstring -> RunResult.

Local Abbreviation grade := (validateCCode problems findMatchingProblem execute).

(** Splits a goal about [grade problem code] into the five paths of the
    orchestrator: unmatched, no output check, execution failed, output
    mismatch, output matched. *)
Ltac grade_paths problem code :=
  let e := fresh "entry" in
  unfold validateCCode;
  destruct (findMatchingProblem problem problems) as [e|] eqn:Hfind;
  [ destruct (hasOutputCheck e) eqn:Hcheck;
    [ cbn [bind call calls value];
      destruct (negb (success (execute code (default [] (Problems.stdin e))))
                && negb (isEmpty (stderr (execute code (default [] (Problems.stdin e))))))
        eqn:Hfail;
      [ | cbn [bind call calls value];
          destruct (outputsMatch
                      (stdout (execute code (default [] (Problems.stdin e))))
                      (default [] (Problems.expectedOutput e))) eqn:Hmatch ]
    | ]
  | ];
  cbn [bind call calling ret calls value negb
       score mistakes summary matchedProblem userOutput expectedOutput outputMatched].

(** C1.  A result whose [outputMatched] is [false] has score 0, and on
    its path neither [compareToReference] nor the similarity scorer nor
    the structural checker was called. *)
Theorem mismatch_scores_zero (problem code : jsstring) :
  outputMatched (value (grade problem code)) = Some false ->
  score (value (grade problem code)) = 0
  /\ existsb isScoring (calls (grade problem code)) = false.
Proof.
  pose proof (compareToReference_optional_fields code) as Hnone.
  grade_paths problem code; intros H; try (split; reflexivity); try discriminate.
  destruct (Hnone (Problems.solution entry)) as (_ & _ & Hm). congruence.
Qed.

(** C2.  Whatever the store and the execution collaborator answer, the
    score lies between 0 and 100. *)
Theorem score_range (problem code : jsstring) :
  0 <= score (value (grade problem code)) <= 100.
Proof.
  grade_paths problem code; try lia; apply compareToReference_score_range.
Qed.

(** The score on the two scoring paths. *)
Lemma scoring_path_score (problem code : jsstring) (entry : Problems.ProblemEntry) :
  findMatchingProblem problem problems = Some entry ->
  hasOutputCheck entry = false
  \/ outputMatched (value (grade problem code)) = Some true ->
  score (value (grade problem code))
  = if blankSubmission code then 0 else composedScore code (Problems.solution entry).
Proof.
  pose proof (compareToReference_score code (Problems.solution entry)) as Hs.
  intros Hentry. revert Hs.
  grade_paths problem code; inversion Hentry; subst; intros Hs [H|H];
    try congruence; try exact Hs.
Qed.

(** C3, amended.  On the two scoring paths (no expected output, or
    expected output matched) the score of a submission that is not blank
    is [round(tokenSimilarity * 60) + max(0, 40 - structuralPenalty)]
    clamped to at most 100; the score of a blank submission is 0. *)
Theorem score_on_scoring_paths (problem code : jsstring) (entry : Problems.ProblemEntry) :
  findMatchingProblem problem problems = Some entry ->
  hasOutputCheck entry = false
  \/ outputMatched (value (grade problem code)) = Some true ->
  score (value (grade problem code))
  = if blankSubmission code then 0 else composedScore code (Problems.solution entry).
Proof. apply scoring_path_score. Qed.

(** C4, amended.  When the matched problem has an expected output and
    the execution collaborator reports failure together with a non-empty
    [stderr], the result has score 0, its findings are the failure notice
    and the first 3 lines of [stderr], and the execution call is the only
    call made: no output comparison, no scoring.  The result is a value in
    every case: [validateCCode] is total, and [runCCode] maps a rejected
    [fetch] to a [RunResult]. *)
Theorem execution_failure_with_stderr
  (problem code : jsstring) (entry : Problems.ProblemEntry) :
  let runResult := execute code (default [] (Problems.stdin entry)) in
  findMatchingProblem problem problems = Some entry ->
  hasOutputCheck entry = true ->
  success runResult = false ->
  isEmpty (stderr runResult) = false ->
  score (value (grade problem code)) = 0
  /\ mistakes (value (grade problem code))
     = [js "Code failed to compile or run."; diagnosticExcerpt (stderr runResult)]
  /\ outputMatched (value (grade problem code)) = Some false
  /\ calls (grade problem code)
     = [CallRunCCode code (default [] (Problems.stdin entry))].
Proof.
  intros runResult Hentry Hcheck' Hs He. subst runResult.
  grade_paths problem code; inversion Hentry; subst; try congruence.
  - repeat split; reflexivity.
  - rewrite Hs, He in Hfail. discriminate.
  - rewrite Hs, He in Hfail. discriminate.
Qed.

(** Whether the orchestrator calls the execution collaborator. *)
Lemma execution_called (problem code : jsstring) :
  existsb isExecution (calls (grade problem code))
  = match findMatchingProblem problem problems with
    | Some entry => hasOutputCheck entry
    | None => false
    end.
Proof.
  pose proof (compareToReference_calls code) as Hc.
  grade_paths problem code; try reflexivity;
    rewrite Hc; destruct (blankSubmission code); reflexivity.
Qed.

(** Whether the orchestrator compares outputs. *)
Lemma outputs_compared (problem code : jsstring) :
  existsb isOutputComparison (calls (grade problem code))
  = match findMatchingProblem problem problems with
    | Some entry =>
      let runResult := execute code (default [] (Problems.stdin entry)) in
      hasOutputCheck entry
      && negb (negb (success runResult) && negb (isEmpty (stderr runResult)))
    | None => false
    end.
Proof.
  pose proof (compareToReference_calls code) as Hc.
  grade_paths problem code; cbv zeta; rewrite ?Hfail; try reflexivity;
    rewrite Hc; destruct (blankSubmission code); reflexivity.
Qed.

(** C5, amended.  A blank submission gets score 0 and is never passed
    to the similarity scorer or the structural checker; it is executed
    (before the blank check) exactly when the matched problem has an
    expected output, and its output is then compared unless the execution
    failed with a non-empty [stderr]. *)
Theorem blank_submission_scores_zero (problem code : jsstring) :
  blankSubmission code = true ->
  score (value (grade problem code)) = 0
  /\ existsb isAnalysis (calls (grade problem code)) = false
  /\ existsb isExecution (calls (grade problem code))
     = match findMatchingProblem problem problems with
       | Some entry => hasOutputCheck entry
       | None => false
       end
  /\ existsb isOutputComparison (calls (grade problem code))
     = match findMatchingProblem problem problems with
       | Some entry =>
         let runResult := execute code (default [] (Problems.stdin entry)) in
         hasOutputCheck entry
         && negb (negb (success runResult) && negb (isEmpty (stderr runResult)))
       | None => false
       end.
Proof.
  intros Hblank.
  split; [|split; [|split; [apply execution_called|apply outputs_compared]]].
  - pose proof (compareToReference_score code) as Hs.
    grade_paths problem code; try reflexivity; rewrite Hs, Hblank; reflexivity.
  - pose proof (compareToReference_analysis_of_blank code) as Hc.
    grade_paths problem code; try reflexivity; rewrite Hc by done; reflexivity.
Qed.

(** C8.  The findings of every result are a non-empty list; in
    [compareToReference], when the structural checker finds nothing, one
    entry is put in: the note on a low similarity, or else one of the two
    sentinels. *)
Theorem mistakes_nonempty (problem code : jsstring) :
  isEmpty (mistakes (value (grade problem code))) = false
  /\ forall refCode,
       mistakes (value (compareToReference code refCode))
       = if blankSubmission code then [js "No code provided"]
         else
           let structural := StructureCheck.mistakes (checkStructure code refCode) in
           if isEmpty structural then
             if Qltb (tokenSimilarity asciiToLowerCase (getTokens code) (getTokens refCode))
                     (literal (3 # 10))
             then [js "Solution structure differs significantly from expected approach"]
             else if 90 <=? composedScore code refCode
             then [js "No major issues - good match!"]
             else [js "Review your implementation for minor improvements"]
           else structural.
Proof.
  split; [|apply compareToReference_mistakes].
  pose proof (compareToReference_mistakes_nonempty code) as Hne.
  grade_paths problem code; try reflexivity;
    specialize (Hne (Problems.solution entry));
    destruct (mistakes (value (compareToReference code (Problems.solution entry))));
    done.
Qed.

(** C10.  A matched record whose [expectedOutput] is the empty string is
    graded as one without output check: the only calls are those of
    [compareToReference], whose score, findings and summary are returned
    with the problem text attached and without [userOutput],
    [expectedOutput] or [outputMatched]. *)
Theorem empty_expected_output_skips_execution
  (problem code : jsstring) (entry : Problems.ProblemEntry) :
  findMatchingProblem problem problems = Some entry ->
  Problems.expectedOutput entry = Some [] ->
  let scored := compareToReference code (Problems.solution entry) in
  calls (grade problem code)
  = CallCompareToReference code (Problems.solution entry) :: calls scored
  /\ existsb isExecution (calls (grade problem code)) = false
  /\ existsb isOutputComparison (calls (grade problem code)) = false
  /\ value (grade problem code)
     = {| score := score (value scored);
          mistakes := mistakes (value scored);
          summary := summary (value scored);
          matchedProblem := Some (Problems.problem entry);
          userOutput := None; expectedOutput := None; outputMatched := None |}.
Proof.
  intros Hentry Hexp scored. subst scored.
  assert (hasOutputCheck entry = false) as Hno
    by (unfold hasOutputCheck; rewrite Hexp; reflexivity).
  destruct (compareToReference_optional_fields code (Problems.solution entry))
    as (Hu & He & Hm).
  pose proof (compareToReference_calls code (Problems.solution entry)) as Hc.
  revert Hu He Hm Hc.
  grade_paths problem code; inversion Hentry; subst; try congruence.
  intros Hu He Hm Hc. rewrite Hu, He, Hm.
  repeat split; try reflexivity; rewrite Hc; destruct (blankSubmission code); reflexivity.
Qed.

(** C7, amended.  For a submission identical to the reference solution
    the token similarity is 1; the structural penalty is zero exactly
    when the text passes the checks made on the submission itself (a call
    of [main], the [stdio.h] include if it calls [printf], [scanf] or
    [fgets], balanced braces, no [gets] next to [fgets]); when it does and
    is not blank, the score on a scoring path is 100. *)
Theorem identical_submission
  (problem code : jsstring) (entry : Problems.ProblemEntry) :
  findMatchingProblem problem problems = Some entry ->
  Problems.solution entry = code ->
  hasOutputCheck entry = false
  \/ outputMatched (value (grade problem code)) = Some true ->
  (tokenSimilarity asciiToLowerCase (getTokens code) (getTokens code) == 1)%Q
  /\ (StructureCheck.penalties (checkStructure code code) = 0
      <-> selfConsistent code = true)
  /\ (selfConsistent code = true -> blankSubmission code = false ->
      score (value (grade problem code)) = 100).
Proof.
  intros Hentry Hsol Hpath.
  split; [apply tokenSimilarity_self|]. split; [apply checkStructure_self|].
  intros Hself Hblank.
  rewrite (scoring_path_score problem code entry Hentry Hpath), Hblank, Hsol.
  unfold composedScore.
  rewrite Math_round_one_times_60 by apply tokenSimilarity_self.
  apply checkStructure_self in Hself. rewrite Hself. reflexivity.
Qed.

End GradingFacts.

(** ** The orchestrator on the sample store *)
Section SampleRuns.
Import Samples.
#[local] Existing Instance exactArithmetic.
Local Open Scope Z_scope.

Lemma mismatch_scores_zero_witness :
  outputMatched (value (gradeWith (Some (js "7")) (netPrints (js "8")) refMain))
  = Some false
  /\ score (value (gradeWith (Some (js "7")) (netPrints (js "8")) refMain)) = 0
  /\ existsb isScoring (calls (gradeWith (Some (js "7")) (netPrints (js "8")) refMain))
     = false.
Proof.
  split; [vm_compute; reflexivity|].
  apply (mismatch_scores_zero [entryWith (Some (js "7"))] findExact
           (runCCode (netPrints (js "8"))) (js "Return zero.") refMain).
  vm_compute. reflexivity.
Defined.

(** C3 as stated fails on a blank submission: with no expected output
    the empty submission is on a scoring path and gets 0, where the
    composition gives 15 (similarity 0, penalty 25 for the missing
    [main]). *)
Lemma blank_submission_not_composed :
  hasOutputCheck (entryWith None) = false
  /\ score (value (gradeWith None netDown [])) = 0
  /\ composedScore [] refMain = 15.
Proof. vm_compute. repeat split; reflexivity. Qed.

Lemma score_on_scoring_paths_witness :
  score (value (gradeWith None netDown (js "int x;"))) = 27
  /\ composedScore (js "int x;") refMain = 27.
Proof.
  pose proof (score_on_scoring_paths [entryWith None] findExact (runCCode netDown)
                (js "Return zero.") (js "int x;") (entryWith None)
                eq_refl (or_introl eq_refl)) as H.
  split; [exact H | vm_compute; reflexivity].
Defined.

(** C4 as stated fails when the failure comes without [stderr]: the
    service answers with status 500, [runCCode] reports a failure whose
    [stderr] is empty, and the orchestrator goes on to compare outputs.
    With expected output ["7"] the findings are the wrong-answer ones and
    carry no excerpt of [stderr]; with an expected output of one line
    break the empty [stdout] matches it, and the submission is scored
    (here with 100). *)
Lemma failure_without_stderr_goes_on :
  success (runCCode netDown refMain []) = false
  /\ stderr (runCCode netDown refMain []) = []
  /\ hasOutputCheck (entryWith (Some [10%N])) = true
  /\ score (value (gradeWith (Some [10%N]) netDown refMain)) = 100
  /\ existsb isScoring (calls (gradeWith (Some [10%N]) netDown refMain)) = true
  /\ mistakes (value (gradeWith (Some (js "7")) netDown refMain))
     = [js "Wrong answer. Output does not match the expected result.";
        js "Your output: " ++ [34; 34]%N;
        js "Expected: " ++ [34; 55; 34]%N]
  /\ existsb isOutputComparison (calls (gradeWith (Some (js "7")) netDown refMain))
     = true.
Proof. vm_compute. repeat split; reflexivity. Qed.

Lemma execution_failure_with_stderr_witness :
  success (runCCode netRejects refMain []) = false
  /\ score (value (gradeWith (Some (js "7")) netRejects refMain)) = 0
  /\ mistakes (value (gradeWith (Some (js "7")) netRejects refMain))
     = [js "Code failed to compile or run.";
        js "main.c:1: error" ++ [10%N] ++ js "line 2" ++ [10%N] ++ js "line 3"]
  /\ outputMatched (value (gradeWith (Some (js "7")) netRejects refMain)) = Some false
  /\ calls (gradeWith (Some (js "7")) netRejects refMain) = [CallRunCCode refMain []].
Proof.
  split; [vm_compute; reflexivity|].
  exact (execution_failure_with_stderr [entryWith (Some (js "7"))] findExact
           (runCCode netRejects) (js "Return zero.") refMain (entryWith (Some (js "7")))
           eq_refl eq_refl eq_refl eq_refl).
Defined.

(** C5 as stated fails when the matched problem has an expected output:
    the empty submission is sent to the execution collaborator and its
    output is compared before [compareToReference] sees that it is
    blank. *)
Lemma blank_submission_is_executed :
  blankSubmission [] = true
  /\ calls (gradeWith (Some (js "7")) (netPrints (js "7")) [])
     = [CallRunCCode [] []; CallOutputsMatch (js "7") (js "7");
        CallCompareToReference [] refMain]
  /\ existsb isExecution (calls (gradeWith (Some (js "7")) (netPrints (js "7")) []))
     = true
  /\ existsb isOutputComparison (calls (gradeWith (Some (js "7")) (netPrints (js "7")) []))
     = true.
Proof. vm_compute. repeat split; reflexivity. Qed.

Lemma blank_submission_scores_zero_witness :
  blankSubmission (js "// nothing yet") = true
  /\ score (value (gradeWith None netDown (js "// nothing yet"))) = 0
  /\ existsb isAnalysis (calls (gradeWith None netDown (js "// nothing yet"))) = false
  /\ existsb isExecution (calls (gradeWith None netDown (js "// nothing yet"))) = false.
Proof.
  split; [vm_compute; reflexivity|].
  destruct (blank_submission_scores_zero [entryWith None] findExact (runCCode netDown)
              (js "Return zero.") (js "// nothing yet") eq_refl) as (Hs & Ha & He & _).
  split; [exact Hs | split; [exact Ha | exact He]].
Defined.

Lemma empty_expected_output_skips_execution_witness :
  Problems.expectedOutput (entryWith (Some [])) = Some []
  /\ calls (gradeWith (Some []) netDown refMain)
     = CallCompareToReference refMain refMain
       :: calls (compareToReference refMain refMain)
  /\ existsb isExecution (calls (gradeWith (Some []) netDown refMain)) = false
  /\ existsb isOutputComparison (calls (gradeWith (Some []) netDown refMain)) = false
  /\ outputMatched (value (gradeWith (Some []) netDown refMain)) = None.
Proof.
  split; [reflexivity|].
  destruct (empty_expected_output_skips_execution [entryWith (Some [])] findExact
              (runCCode netDown) (js "Return zero.") refMain (entryWith (Some []))
              eq_refl eq_refl) as (Hc & He & Ho & Hv).
  split; [exact Hc|]. split; [exact He|]. split; [exact Ho|].
  exact (f_equal outputMatched Hv).
Defined.

(** C7 as stated fails on a text without [main]: compared with itself
    it has similarity 1, but the structural checker still charges the
    missing entry point, and the score is 60 + 15. *)
Lemma identical_text_without_main :
  (tokenSimilarity asciiToLowerCase (getTokens (js "int x;")) (getTokens (js "int x;"))
   == 1)%Q
  /\ StructureCheck.penalties (checkStructure (js "int x;") (js "int x;")) = 25
  /\ hasOutputCheck (entryFor (js "int x;") None) = false
  /\ score (value (gradeFor (js "int x;") None netDown (js "int x;"))) = 75.
Proof. vm_compute. repeat split; reflexivity. Qed.

Lemma identical_submission_witness :
  (tokenSimilarity asciiToLowerCase (getTokens refMain) (getTokens refMain) == 1)%Q
  /\ StructureCheck.penalties (checkStructure refMain refMain) = 0
  /\ score (value (gradeWith None netDown refMain)) = 100.
Proof.
  destruct (identical_submission [entryWith None] findExact (runCCode netDown)
              (js "Return zero.") refMain (entryWith None)
              eq_refl eq_refl (or_introl eq_refl)) as (H1 & H2 & H3).
  split; [exact H1|]. split.
  - apply H2. vm_compute. reflexivity.
  - apply H3; vm_compute; reflexivity.
Defined.

End SampleRuns.

(** ** Sample evaluations *)
Section Evaluations.
#[local] Existing Instance exactArithmetic.

Example normalizeOutput_crlf :
  normalizeOutput (js "7" ++ [13; 10; 32]) = js "7".
Proof. vm_compute. reflexivity. Qed.

Example normalizeOutput_lines :
  normalizeOutput ([9; 32] ++ js "a  b" ++ [9; 13] ++ js " c " ++ [10; 10])
  = js "a b" ++ [10] ++ js "c".
Proof. vm_compute. reflexivity. Qed.

Example outputsMatch_line_endings :
  outputsMatch (js "7" ++ [13; 10; 32]) (js "7" ++ [10]) = true.
Proof. vm_compute. reflexivity. Qed.

Example outputsMatch_content :
  outputsMatch (js "Sum: 6") (js "Sum: 5") = false.
Proof. vm_compute. reflexivity. Qed.

Example runCCode_not_ok :
  runCCode (fun _ _ => NotOk 500) (js "int main(){}") []
  = {| success := false; stdout := []; stderr := [];
       error := Some (js "API error: 500") |}.
Proof. vm_compute. reflexivity. Qed.

Example runCCode_exit_code :
  stderr (runCCode (fun _ _ => Answered (Some {| run_stdout := Some (js "x");
                                                run_stderr := None;
                                                run_code := Some 1%Z |}) None)
            [] [])
  = js "Exit code: 1".
Proof. vm_compute. reflexivity. Qed.

Example normalizeCode_comments :
  normalizeCode (js "int x; // hi" ++ [10] ++ js "/* a */ y /* b")
  = js "int x; y /* b".
Proof. vm_compute. reflexivity. Qed.

Example normalizeCode_slash_star_slash :
  normalizeCode (js "a /*/ b */ c") = js "a c".
Proof. vm_compute. reflexivity. Qed.

Example normalizeCode_line_comment_first :
  normalizeCode (js "a /* x // */ b" ++ [10] ++ js "c */ d") = js "a d".
Proof. vm_compute. reflexivity. Qed.

Example getTokens_sample :
  getTokens (js "int main(){ x+=12ab; return a<=b && c;}")
  = [js "int"; js "main"; js "("; js ")"; js "{"; js "x"; js "+="; js "12";
     js "ab"; js ";"; js "return"; js "a"; js "<="; js "b"; js "&&"; js "c";
     js ";"; js "}"].
Proof. vm_compute. reflexivity. Qed.

Example checkStructure_all_but_main :
  checkStructure (js "int main (){ fgets(x); gets (y); ")
                 (js "#include <stdio.h> y % 2 switch(  fgets(")
  = {| StructureCheck.mistakes :=
         [js "Missing #include <stdio.h>"; js "Unbalanced braces";
          js "Problem requires switch statement";
          js "Use modulo operator (%) for even/odd check";
          js "Use fgets() instead of gets()"];
       StructureCheck.penalties := 70 |}.
Proof. vm_compute. reflexivity. Qed.

Example checkStructure_word_boundary :
  StructureCheck.penalties
    (checkStructure (js "# include  <stdio.h> int xmain(){}") (js " printf(")) = 25%Z
  /\ StructureCheck.penalties
       (checkStructure (js "#include<stdio.h> int _main(){}") (js " sprintf(")) = 25%Z.
Proof. vm_compute. split; reflexivity. Qed.

Example checkStructure_unbalanced :
  checkStructure (js "int main(){ return 0;") (js "x")
  = {| StructureCheck.mistakes := [js "Unbalanced braces"];
       StructureCheck.penalties := 20 |}.
Proof. vm_compute. reflexivity. Qed.

Example tokenSimilarity_half :
  (tokenSimilarity asciiToLowerCase (getTokens (js "int A; b"))
                   (getTokens (js "INT a; c d")) == 1 # 2)%Q.
Proof. vm_compute. reflexivity. Qed.

(** A call of [main] inside a comment satisfies the structural checker,
    yet the submission is blank. *)
Example commented_main_is_blank :
  selfConsistent (js "// main()") = true
  /\ blankSubmission (js "// main()") = true
  /\ score (value (Samples.gradeFor (js "// main()") None Samples.netDown
                                    (js "// main()"))) = 0%Z.
Proof. vm_compute. repeat split; reflexivity. Qed.

End Evaluations.

(** ** More facts: the output comparator *)
Section OutputComparator.

Lemma squeezed_no_tab (b : bool) (s : jsstring) :
  squeezed b s = true -> Forall (fun c => c <> 9) s.
Proof.
  revert b. induction s as [|c s IH]; intros b H; [constructor|].
  simpl in H. destruct (isBlank c) eqn:Ec.
  - apply andb_prop in H as [H1 H2]. apply andb_prop in H1 as [H1 _].
    apply N.eqb_eq in H1 as ->. constructor; [done|]. by apply (IH true).
  - constructor; [|by apply (IH false)]. intros ->. done.
Qed.

Lemma normalLines_trimmed (ls : list jsstring) :
  normalLines ls -> trim (join [10] ls) = join [10] ls.
Proof.
  intros [Hlines Hends]. rewrite trim_join, Hends; [done| |];
    eapply Forall_impl; try exact Hlines; unfold normalLine; tauto.
Qed.

Lemma normalizeOutput_trimmed (s : jsstring) :
  trim (normalizeOutput s) = normalizeOutput s.
Proof.
  destruct (normalizeOutput_shape s) as (ls & Hls & ->).
  by apply normalLines_trimmed.
Qed.

Lemma normalizeOutput_twice (s : jsstring) :
  normalizeOutput (normalizeOutput s) = normalizeOutput s.
Proof.
  destruct (normalizeOutput_shape s) as (ls & Hls & ->).
  by apply normalizeOutput_fixed.
Qed.

(** X1.  The shape of normalised output.  It holds no carriage return and
    no tab, no two blanks in a row, no white space at either end, and
    none of its lines starts or ends with white space. *)
Theorem normalizeOutput_normal (s : jsstring) :
  Forall (fun c => c <> 13 /\ c <> 9) (normalizeOutput s)
  /\ squeezed false (normalizeOutput s) = true
  /\ trim (normalizeOutput s) = normalizeOutput s
  /\ Forall (fun l => trim l = l) (split 10 (normalizeOutput s)).
Proof.
  destruct (normalizeOutput_shape s) as (ls & Hls & ->).
  assert (squeezed false (join [10] ls) = true) as Hsq.
  { apply squeezed_join. eapply Forall_impl; [exact (proj1 Hls)|].
    unfold normalLine; tauto. }
  split; [|split; [exact Hsq|split; [by apply normalLines_trimmed|]]].
  - apply Forall_and. split; [|by apply (squeezed_no_tab false)].
    apply join_Forall; [done|]. eapply Forall_impl; [exact (proj1 Hls)|].
    unfold normalLine; tauto.
  - destruct ls as [|l0 ls0]; [by repeat constructor|].
    rewrite split_join; [|done|].
    + eapply Forall_impl; [exact (proj1 Hls)|].
      intros l (_ & _ & _ & Hs & He). by apply stripBoth_fixed.
    + eapply Forall_impl; [exact (proj1 Hls)|]. unfold normalLine; tauto.
Qed.

(** Every unit of the normalised output is a unit of the input, a line
    break or a space. *)
Lemma normalizeOutput_Forall (P : N -> Prop) (s : jsstring) :
  P 10 -> P 32 -> Forall P s -> Forall P (normalizeOutput s).
Proof.
  intros H10 H32 H. unfold normalizeOutput, trim.
  apply stripBoth_Forall, join_Forall; [done|].
  apply Forall_map. eapply Forall_impl.
  - apply split_Forall. repeat apply replaceAll_Forall; try done; by repeat constructor.
  - intros l Hl. by apply stripBoth_Forall.
Qed.

Lemma dropWhile_all {A} (f : A -> bool) (l : list A) :
  Forall (fun x => f x = true) l -> dropWhile f l = [].
Proof. induction 1 as [|x l Hx _ IH]; simpl; [done|]. by rewrite Hx. Qed.

(** X2.  Output made of white space only normalises to the empty string,
    so it matches the empty output. *)
Theorem normalizeOutput_blank (s : jsstring) :
  Forall (fun c => isSpace c = true) s ->
  normalizeOutput s = [] /\ outputsMatch s [] = true.
Proof.
  intros H. apply (normalizeOutput_Forall _ s eq_refl eq_refl) in H.
  assert (normalizeOutput s = []) as E.
  { rewrite <- normalizeOutput_trimmed. unfold trim, stripBoth.
    by rewrite (dropWhile_all _ _ H). }
  split; [exact E|]. unfold outputsMatch. by rewrite E.
Qed.

(** X3.  [outputsMatch] is an equivalence relation, and it does not tell
    an output from its normal form. *)
Theorem outputsMatch_equivalence (a b c : jsstring) :
  outputsMatch a a = true
  /\ outputsMatch a b = outputsMatch b a
  /\ (outputsMatch a b = true -> outputsMatch b c = true -> outputsMatch a c = true)
  /\ outputsMatch (normalizeOutput a) b = outputsMatch a b.
Proof.
  unfold outputsMatch, eqb. repeat split.
  - by apply bool_decide_eq_true.
  - apply bool_decide_ext. split; congruence.
  - rewrite !bool_decide_eq_true. congruence.
  - by rewrite normalizeOutput_twice.
Qed.

End OutputComparator.

(** ** More facts: what [normalizeOutput] ignores *)
Section Ignored.

Lemma replaceAll_skip_cons (p : Pattern) (rep : jsstring) (k : nat) (c : N) (s : jsstring) :
  replaceAll p rep (S k) (c :: s) = replaceAll p rep k s.
Proof. reflexivity. Qed.

Lemma replaceAll_crlf_toCRLF (s : jsstring) :
  Forall (fun c => c <> 13) s -> replaceAll crlf [10] 0 (toCRLF s) = s.
Proof.
  induction s as [|c s IH]; intros H; [done|].
  apply Forall_cons in H as [Hc Hs]. specialize (IH Hs).
  unfold toCRLF in *. simpl flat_map. destruct (N.eqb_spec c 10) as [->|Hn].
  - simpl app. rewrite replaceAll_cons, crlf_cons. simpl.
    by rewrite IH.
  - simpl app. rewrite replaceAll_cons, crlf_cons.
    apply N.eqb_neq in Hc as ->. simpl. by rewrite IH.
Qed.

Lemma replaceAll_crlf_toCR (s : jsstring) :
  replaceAll crlf [10] 0 (toCR s) = toCR s.
Proof.
  induction s as [|c s IH]; [done|]. unfold toCR in *. simpl map.
  rewrite replaceAll_cons, crlf_cons.
  assert (headIs 10 (map (fun c0 => if c0 =? 10 then 13 else c0) s) = false) as ->.
  { destruct s as [|d s]; [done|]. simpl. destruct (N.eqb_spec d 10); [done|].
    by apply N.eqb_neq. }
  rewrite andb_false_r. by rewrite IH.
Qed.

Lemma replaceAll_cr_toCR (s : jsstring) :
  Forall (fun c => c <> 13) s -> replaceAll cr [10] 0 (toCR s) = s.
Proof.
  induction s as [|c s IH]; intros H; [done|].
  apply Forall_cons in H as [Hc Hs]. specialize (IH Hs).
  unfold toCR in *. simpl map. rewrite replaceAll_cons, cr_cons.
  destruct (N.eqb_spec c 10) as [->|Hn]; simpl.
  - by rewrite IH.
  - apply N.eqb_neq in Hc as ->. by rewrite IH.
Qed.

(** X4.  The line-ending convention does not matter.  A text without
    carriage returns, the same text with Windows line endings and the
    same text with carriage returns for line breaks have the same normal
    form, hence match each other. *)
Theorem normalizeOutput_line_endings (s : jsstring) :
  Forall (fun c => c <> 13) s ->
  normalizeOutput (toCRLF s) = normalizeOutput s
  /\ normalizeOutput (toCR s) = normalizeOutput s
  /\ outputsMatch (toCRLF s) s = true
  /\ outputsMatch (toCR s) s = true.
Proof.
  intros H.
  assert (normalizeOutput (toCRLF s) = normalizeOutput s) as E1.
  { unfold normalizeOutput.
    by rewrite replaceAll_crlf_toCRLF, (replaceAll_crlf_fixed s H). }
  assert (normalizeOutput (toCR s) = normalizeOutput s) as E2.
  { unfold normalizeOutput.
    by rewrite replaceAll_crlf_toCR, replaceAll_cr_toCR,
       (replaceAll_crlf_fixed s H), (replaceAll_cr_fixed s H). }
  unfold outputsMatch, eqb. rewrite E1, E2.
  repeat split; by apply bool_decide_eq_true.
Qed.

End Ignored.

(** ** More facts: white space around the output *)
Section Trailing.

Local Abbreviation blank w := (Forall (fun c => isSpace c = true) w).

Lemma dropWhile_app_all {A} (f : A -> bool) (a z : list A) :
  Forall (fun x => f x = true) a -> dropWhile f (a ++ z) = dropWhile f z.
Proof. induction 1 as [|x l Hx _ IH]; simpl; [done|]. by rewrite Hx. Qed.

Lemma dropWhile_app {A} (f : A -> bool) (l h : list A) :
  dropWhile f (l ++ h)
  = match dropWhile f l with [] => dropWhile f h | _ => dropWhile f l ++ h end.
Proof.
  induction l as [|x l IH]; simpl; [by destruct (dropWhile f h)|].
  destruct (f x); done.
Qed.

Lemma stripBoth_app_all {A} (f : A -> bool) (l h : list A) :
  Forall (fun x => f x = true) h -> stripBoth f (l ++ h) = stripBoth f l.
Proof.
  intros H. unfold stripBoth. rewrite dropWhile_app.
  destruct (dropWhile f l) as [|x k] eqn:E.
  - by rewrite (dropWhile_all f h H).
  - rewrite rev_app_distr, dropWhile_app_all; [done|]. by apply Forall_rev.
Qed.

Lemma stripBoth_all {A} (f : A -> bool) (h : list A) :
  Forall (fun x => f x = true) h -> stripBoth f h = [].
Proof. intros H. unfold stripBoth. by rewrite (dropWhile_all f h H). Qed.

(** The two line-ending replacements, in one pass. *)
Lemma replaceAll_cr_cons (c : N) (s : jsstring) :
  replaceAll cr [10] 0 (c :: s)
  = (if c =? 13 then 10 else c) :: replaceAll cr [10] 0 s.
Proof. rewrite replaceAll_cons, cr_cons. by destruct (c =? 13). Qed.

Lemma replaceAll_crlf_cons2 (c d : N) (s : jsstring) :
  replaceAll crlf [10] 0 (c :: d :: s)
  = if (c =? 13) && (d =? 10) then 10 :: replaceAll crlf [10] 0 s
    else c :: replaceAll crlf [10] 0 (d :: s).
Proof.
  rewrite replaceAll_cons, crlf_cons. simpl headIs.
  destruct ((c =? 13) && (d =? 10)); reflexivity.
Qed.

Lemma unifyLineEnds_cons2 (c d : N) (s : jsstring) :
  unifyLineEnds false (c :: d :: s)
  = if (c =? 13) && (d =? 10) then 10 :: unifyLineEnds false s
    else (if c =? 13 then 10 else c) :: unifyLineEnds false (d :: s).
Proof. simpl. destruct (c =? 13), (d =? 10); reflexivity. Qed.

Lemma line_ends_one_pass (s : jsstring) :
  replaceAll cr [10] 0 (replaceAll crlf [10] 0 s) = unifyLineEnds false s
  /\ forall c,
       replaceAll cr [10] 0 (replaceAll crlf [10] 0 (c :: s))
       = unifyLineEnds false (c :: s).
Proof.
  induction s as [|d s [IH1 IH2]].
  - split; [done|]. intros c. rewrite replaceAll_cons, crlf_cons.
    simpl headIs. rewrite andb_false_r. rewrite replaceAll_cr_cons. simpl.
    by destruct (c =? 13).
  - split; [apply IH2|]. intros c.
    rewrite replaceAll_crlf_cons2, unifyLineEnds_cons2.
    destruct ((c =? 13) && (d =? 10)); rewrite replaceAll_cr_cons.
    + by rewrite IH1.
    + by rewrite IH2.
Qed.

Lemma unifyLineEnds_Forall (P : N -> Prop) (b : bool) (s : jsstring) :
  P 10 -> Forall P s -> Forall P (unifyLineEnds b s).
Proof.
  intros H10 H. revert b. induction H as [|c s Hc Hs IH]; intros b; simpl; [constructor|].
  destruct (b && (c =? 10)); [apply IH|]. destruct (c =? 13); constructor; auto.
Qed.

Lemma unifyLineEnds_app (b : bool) (s w : jsstring) :
  blank w ->
  exists w', blank w' /\ unifyLineEnds b (s ++ w) = unifyLineEnds b s ++ w'.
Proof.
  intros Hw. revert b. induction s as [|c s IH]; intros b.
  - exists (unifyLineEnds b w). split; [|done]. by apply unifyLineEnds_Forall.
  - simpl. destruct (b && (c =? 10)); [apply IH|]. destruct (c =? 13).
    + destruct (IH true) as (w' & H1 & ->). by exists w'.
    + destruct (IH false) as (w' & H1 & ->). by exists w'.
Qed.

Lemma run_app (f : N -> bool) (x w : jsstring) :
  run f (x ++ w) = run f x
  \/ (length x <= run f x /\ length x <= run f (x ++ w))%nat.
Proof.
  induction x as [|c x IH]; [right; simpl; lia|].
  change ((c :: x) ++ w) with (c :: (x ++ w)). rewrite !run_cons.
  destruct (f c); [|by left]. destruct IH as [->|[H1 H2]]; [by left|].
  right. simpl. lia.
Qed.

Lemma replaceAll_blanks_app (x w : jsstring) :
  blank w ->
  forall k k',
    k = k' \/ (length x <= k /\ length x <= k')%nat ->
    exists w', blank w'
      /\ replaceAll blanks [32] k' (x ++ w) = replaceAll blanks [32] k x ++ w'.
Proof.
  intros Hw. induction x as [|c x IH]; intros k k' Hk.
  - exists (replaceAll blanks [32] k' w). split; [|done].
    apply replaceAll_Forall; [by repeat constructor|done].
  - change ((c :: x) ++ w) with (c :: (x ++ w)).
    destruct k as [|j].
    + assert (k' = 0%nat) as -> by (simpl in Hk; lia).
      rewrite !replaceAll_cons, !blanks_cons. destruct (isBlank c).
      * destruct (IH (run isBlank x) (run isBlank (x ++ w))) as (w' & H1 & ->).
        { destruct (run_app isBlank x w) as [->|?]; [by left|by right]. }
        by exists w'.
      * destruct (IH 0%nat 0%nat) as (w' & H1 & ->); [by left|]. by exists w'.
    + destruct k' as [|j']; [simpl in Hk; lia|]. simpl.
      apply IH. simpl in Hk. lia.
Qed.

Lemma split_app (x w : jsstring) :
  split 10 (x ++ w)
  = removelast (split 10 x)
    ++ (List.last (split 10 x) [] ++ hd [] (split 10 w)) :: tl (split 10 w).
Proof.
  induction x as [|c x IH]; [apply split_hd_tl|].
  change ((c :: x) ++ w) with (c :: (x ++ w)). rewrite !split_cons, IH.
  pose proof (split_nonempty x) as Hne.
  destruct (c =? 10).
  - destruct (split 10 x) as [|l ls] eqn:E; [done|]. reflexivity.
  - destruct (split 10 x) as [|l ls] eqn:E; [done|].
    destruct ls as [|l' ls']; reflexivity.
Qed.

Lemma join_app_empty (ls : list jsstring) (n : nat) :
  ls <> [] ->
  join [10] (ls ++ replicate n []) = join [10] ls ++ replicate n 10.
Proof.
  revert ls. induction n as [|n IH]; intros ls Hne; simpl.
  - by rewrite !app_nil_r.
  - change (ls ++ [] :: replicate n []) with (ls ++ [[]] ++ replicate n []).
    rewrite app_assoc, IH.
    + rewrite join_snoc by done. by rewrite <- app_assoc.
    + intros H. by apply app_eq_nil in H as [_ ?].
Qed.

Lemma trim_app_blank (l h : jsstring) : blank h -> trim (l ++ h) = trim l.
Proof. apply stripBoth_app_all. Qed.

Lemma trim_blank (h : jsstring) : blank h -> trim h = [].
Proof. apply stripBoth_all. Qed.

Lemma map_trim_blank (ls : list jsstring) :
  Forall (fun l => blank l) ls -> map trim ls = replicate (length ls) [].
Proof.
  induction 1 as [|l ls Hl _ IH]; simpl; [done|].
  by rewrite trim_blank, IH.
Qed.

(** Lines, trimmed and joined and trimmed again, do not change when
    white space is appended to the text. *)
Lemma lines_ignore_trailing (y w : jsstring) :
  blank w ->
  trim (join [10] (map trim (split 10 (y ++ w))))
  = trim (join [10] (map trim (split 10 y))).
Proof.
  intros Hw. rewrite split_app.
  pose proof (split_Forall _ w Hw) as Hlines. rewrite (split_hd_tl w) in Hlines.
  apply Forall_cons in Hlines as [Hh Ht].
  assert (map trim (removelast (split 10 y)
                    ++ (List.last (split 10 y) [] ++ hd [] (split 10 w))
                       :: tl (split 10 w))
          = map trim (split 10 y) ++ replicate (length (tl (split 10 w))) []) as ->.
  { rewrite map_app. simpl map. rewrite trim_app_blank by done.
    rewrite (map_trim_blank _ Ht).
    rewrite (app_removelast_last (l := split 10 y) []) at 3 by apply split_nonempty.
    rewrite map_app, <- app_assoc. reflexivity. }
  rewrite join_app_empty.
  - apply trim_app_blank.
    apply Forall_forall. intros c Hc. apply elem_of_replicate in Hc as [-> _]. done.
  - pose proof (split_nonempty y). destruct (split 10 y); done.
Qed.

Lemma normalizeOutput_app_blank (s w : jsstring) :
  blank w -> normalizeOutput (s ++ w) = normalizeOutput s.
Proof.
  intros Hw. unfold normalizeOutput.
  rewrite !(proj1 (line_ends_one_pass _)).
  destruct (unifyLineEnds_app false s w Hw) as (w1 & H1 & ->).
  destruct (replaceAll_blanks_app (unifyLineEnds false s) w1 H1 0%nat 0%nat)
    as (w2 & H2 & ->); [by left|].
  by apply lines_ignore_trailing.
Qed.

(** *** Leading white space *)

Lemma stripBoth_all_app {A} (f : A -> bool) (h l : list A) :
  Forall (fun x => f x = true) h -> stripBoth f (h ++ l) = stripBoth f l.
Proof. intros H. unfold stripBoth. by rewrite dropWhile_app_all. Qed.

Lemma unifyLineEnds_true (s : jsstring) :
  exists w', blank w' /\ 10 :: unifyLineEnds true s = w' ++ unifyLineEnds false s.
Proof.
  destruct s as [|c s]; [exists [10]; split; [by repeat constructor|done]|]. simpl.
  destruct (N.eqb_spec c 10) as [->|Hc].
  - exists []. split; [by repeat constructor|done].
  - exists [10]. split; [by repeat constructor|done].
Qed.

Lemma unifyLineEnds_blank_app (w s : jsstring) :
  blank w ->
  (exists w', blank w' /\ unifyLineEnds false (w ++ s) = w' ++ unifyLineEnds false s)
  /\ (exists w', blank w'
                 /\ 10 :: unifyLineEnds true (w ++ s) = w' ++ unifyLineEnds false s).
Proof.
  induction 1 as [|c w Hc Hw [IHf IHt]].
  - split; [exists []; split; [by repeat constructor|done]|apply unifyLineEnds_true].
  - assert (exists w', blank w'
              /\ unifyLineEnds false ((c :: w) ++ s) = w' ++ unifyLineEnds false s) as Hf.
    { simpl. destruct (c =? 13); [exact IHt|].
      destruct IHf as (w' & H1 & ->). exists (c :: w'). split; [by constructor|done]. }
    split; [exact Hf|]. simpl. destruct (c =? 10).
    + destruct IHf as (w' & H1 & ->). exists (10 :: w'). split; [by constructor|done].
    + destruct Hf as (w' & H1 & E). simpl in E. rewrite E.
      exists (10 :: w'). split; [by constructor|done].
Qed.

Lemma replaceAll_skip (p : Pattern) (rep : jsstring) (k : nat) (s : jsstring) :
  replaceAll p rep k s = replaceAll p rep 0 (drop k s).
Proof.
  revert k. induction s as [|c s IH]; intros k; [by destruct k|].
  destruct k; [done|]. simpl. apply IH.
Qed.

Lemma drop_run (f : N -> bool) (s : jsstring) : drop (run f s) s = dropWhile f s.
Proof.
  induction s as [|c s IH]; [done|]. rewrite run_cons. simpl.
  destruct (f c); [exact IH|done].
Qed.

Lemma replaceAll_blanks_blank (c : N) (s : jsstring) :
  isBlank c = true ->
  replaceAll blanks [32] 0 (c :: s)
  = 32 :: replaceAll blanks [32] 0 (dropWhile isBlank s).
Proof.
  intros Hc. rewrite replaceAll_cons, blanks_cons, Hc.
  by rewrite replaceAll_skip, drop_run.
Qed.

Lemma replaceAll_blanks_other (c : N) (s : jsstring) :
  isBlank c = false ->
  replaceAll blanks [32] 0 (c :: s) = c :: replaceAll blanks [32] 0 s.
Proof. intros Hc. by rewrite replaceAll_cons, blanks_cons, Hc. Qed.

Lemma replaceAll_blanks_dropWhile (y : jsstring) :
  exists w', blank w'
    /\ 32 :: replaceAll blanks [32] 0 (dropWhile isBlank y)
       = w' ++ replaceAll blanks [32] 0 y.
Proof.
  destruct y as [|c y]; [exists [32]; split; [by repeat constructor|done]|]. simpl dropWhile.
  destruct (isBlank c) eqn:Ec.
  - exists []. split; [constructor|]. by rewrite (replaceAll_blanks_blank c y Ec).
  - exists [32]. split; [by repeat constructor|done].
Qed.

Lemma replaceAll_blanks_blank_app (n : nat) (w y : jsstring) :
  (length w <= n)%nat -> blank w ->
  exists w', blank w'
    /\ replaceAll blanks [32] 0 (w ++ y) = w' ++ replaceAll blanks [32] 0 y.
Proof.
  revert w. induction n as [|n IH]; intros w Hn Hw.
  - destruct w; [exists []; split; [by repeat constructor|done]|simpl in Hn; lia].
  - destruct w as [|c w]; [exists []; split; [by repeat constructor|done]|].
    apply Forall_cons in Hw as [Hc Hw]. simpl in Hn.
    change ((c :: w) ++ y) with (c :: (w ++ y)).
    destruct (isBlank c) eqn:Ec.
    + rewrite (replaceAll_blanks_blank c _ Ec), dropWhile_app.
      destruct (dropWhile isBlank w) as [|d w0] eqn:Ew.
      * apply replaceAll_blanks_dropWhile.
      * destruct (dropWhile_suffix isBlank w) as [a Ha]. rewrite Ew in Ha.
        destruct (IH (d :: w0)) as (w' & H1 & ->).
        { pose proof (dropWhile_length isBlank w) as Hl. rewrite Ew in Hl. lia. }
        { rewrite Ha in Hw. by apply Forall_app in Hw as [_ Hw]. }
        exists (32 :: w'). split; [by constructor|done].
    + rewrite (replaceAll_blanks_other c _ Ec).
      destruct (IH w) as (w' & H1 & ->); [lia|done|].
      exists (c :: w'). split; [by constructor|done].
Qed.

Lemma join_empty_app (n : nat) (ls : list jsstring) :
  ls <> [] ->
  join [10] (replicate n [] ++ ls) = replicate n 10 ++ join [10] ls.
Proof.
  intros Hne. induction n as [|n IH]; [done|].
  change (replicate (S n) [] ++ ls) with ([] :: (replicate n [] ++ ls)).
  rewrite join_cons.
  - simpl. by rewrite IH.
  - destruct n; [done|done].
Qed.

Lemma lines_ignore_leading (w y : jsstring) :
  blank w ->
  trim (join [10] (map trim (split 10 (w ++ y))))
  = trim (join [10] (map trim (split 10 y))).
Proof.
  intros Hw. rewrite split_app.
  pose proof (split_Forall _ w Hw) as Hlines.
  assert (map trim (removelast (split 10 w)
                    ++ (List.last (split 10 w) [] ++ hd [] (split 10 y))
                       :: tl (split 10 y))
          = replicate (length (removelast (split 10 w))) []
            ++ map trim (split 10 y)) as ->.
  { rewrite (app_removelast_last (l := split 10 w) []) in Hlines by apply split_nonempty.
    apply Forall_app in Hlines as [H1 H2]. apply Forall_cons in H2 as [H2 _].
    rewrite map_app. simpl map. unfold trim at 2.
    rewrite stripBoth_all_app by done. fold (trim (hd [] (split 10 y))).
    rewrite (map_trim_blank _ H1). by rewrite (split_hd_tl y) at 3. }
  rewrite join_empty_app.
  - unfold trim at 1. rewrite stripBoth_all_app; [done|].
    apply Forall_forall. intros c Hc. apply elem_of_replicate in Hc as [-> _]. done.
  - intros E. apply (f_equal (@length _)) in E. rewrite length_map in E.
    pose proof (split_nonempty y). destruct (split 10 y); done.
Qed.

Lemma normalizeOutput_blank_app (w s : jsstring) :
  blank w -> normalizeOutput (w ++ s) = normalizeOutput s.
Proof.
  intros Hw. unfold normalizeOutput.
  rewrite !(proj1 (line_ends_one_pass _)).
  destruct (proj1 (unifyLineEnds_blank_app w s Hw)) as (w1 & H1 & ->).
  destruct (replaceAll_blanks_blank_app (length w1) w1 (unifyLineEnds false s))
    as (w2 & H2 & ->); [done|done|].
  by apply lines_ignore_leading.
Qed.

(** X5.  White space around the output does not matter. *)
Theorem normalizeOutput_surrounding (w1 s w2 : jsstring) :
  Forall (fun c => isSpace c = true) w1 ->
  Forall (fun c => isSpace c = true) w2 ->
  normalizeOutput (w1 ++ s ++ w2) = normalizeOutput s
  /\ outputsMatch (w1 ++ s ++ w2) s = true.
Proof.
  intros H1 H2.
  assert (normalizeOutput (w1 ++ s ++ w2) = normalizeOutput s) as E.
  { by rewrite normalizeOutput_blank_app, normalizeOutput_app_blank. }
  split; [exact E|]. unfold outputsMatch, eqb. rewrite E.
  by apply bool_decide_eq_true.
Qed.

End Trailing.

(** ** More facts: the execution collaborator *)
Section RunCCode.

Variable net : Network.

Lemma orElse_nil (a : jsstring) : orElse a [] = a.
Proof. by destruct a. Qed.

Lemma exit_code_zero (o : option Z) :
  (default (-1) o =? 0)%Z = bool_decide (o = Some 0%Z).
Proof.
  symmetry. destruct o as [z|]; simpl.
  - destruct (Z.eqb_spec z 0) as [->|Hz].
    + by apply bool_decide_eq_true.
    + apply bool_decide_eq_false. congruence.
  - done.
Qed.

(** X6.  [runCCode] reports success exactly when the service answered
    without a message and with exit code 0; then [error] is unset and
    [stdout] and [stderr] are those of the answer. *)
Theorem runCCode_success (code stdin : jsstring) :
  success (runCCode net code stdin)
  = match net code stdin with
    | Answered run message =>
      isEmpty (default [] message)
      && bool_decide (run ≫= run_code = Some 0%Z)
    | _ => false
    end
  /\ (success (runCCode net code stdin) = true ->
      error (runCCode net code stdin) = None
      /\ exists run message,
           net code stdin = Answered run message
           /\ stdout (runCCode net code stdin) = default [] (run ≫= run_stdout)
           /\ stderr (runCCode net code stdin) = default [] (run ≫= run_stderr)).
Proof.
  unfold runCCode. destruct (net code stdin) as [m|st|run [[|c m]|]];
    cbn [success error stdout stderr default isEmpty length Nat.eqb andb];
    try (split; [reflexivity|discriminate]).
  - split; [rewrite <- exit_code_zero; reflexivity|].
    intros Hs. rewrite Hs, orElse_nil. split; [done|]. by exists run, (Some []).
  - split; [rewrite <- exit_code_zero; reflexivity|].
    intros Hs. rewrite Hs, orElse_nil. split; [done|]. by exists run, None.
Qed.

Lemma orElse_nonempty (a b : jsstring) :
  isEmpty b = false -> isEmpty (orElse a b) = false.
Proof. by destruct a. Qed.

(** X7.  A failed run has an empty [stderr] exactly when the request
    itself failed (a rejected [fetch] or an HTTP error status); then
    [stdout] is empty too and [error] holds the reason.  Every other
    failure comes with a non-empty [stderr]. *)
Theorem runCCode_failure (code stdin : jsstring) :
  success (runCCode net code stdin) = false ->
  isEmpty (stderr (runCCode net code stdin))
  = match net code stdin with
    | Answered _ _ => false
    | _ => true
    end
  /\ (isEmpty (stderr (runCCode net code stdin)) = true ->
      stdout (runCCode net code stdin) = []
      /\ is_Some (error (runCCode net code stdin))).
Proof.
  unfold runCCode. destruct (net code stdin) as [m|st|run [[|c m]|]];
    cbn [success error stdout stderr]; intros Hs.
  - split; [reflexivity|]. by intros _.
  - split; [reflexivity|]. by intros _.
  - rewrite Hs, orElse_nonempty by done. split; [reflexivity|discriminate].
  - split; [reflexivity|discriminate].
  - rewrite Hs, orElse_nonempty by done. split; [reflexivity|discriminate].
Qed.

End RunCCode.

(** ** More facts: the code normalizer *)
Section CodeNormalizer.

Lemma spaces_cons (c : N) (s : jsstring) :
  spaces (c :: s) = if isSpace c then S (run isSpace s) else 0%nat.
Proof. apply run_cons. Qed.

Lemma packed_weaken (b : bool) (s : jsstring) :
  packed true s = true -> packed b s = true.
Proof.
  destruct s as [|c s]; [done|]. simpl. destruct (isSpace c); [|done].
  rewrite andb_false_r. done.
Qed.

(** Collapsing the runs of white space leaves single spaces only. *)
Lemma replaceAll_spaces_packed (s : jsstring) :
  packed true (replaceAll spaces [32] (run isSpace s) s) = true
  /\ packed false (replaceAll spaces [32] 0 s) = true.
Proof.
  induction s as [|c s [IH1 IH2]]; [done|].
  rewrite replaceAll_cons, !spaces_cons.
  destruct (isSpace c) eqn:Ec.
  - split; [exact IH1|]. simpl. by rewrite IH1.
  - rewrite replaceAll_cons, spaces_cons, Ec. simpl. by rewrite Ec.
Qed.

Lemma packed_app (b : bool) (x y : jsstring) :
  packed b (x ++ y) = true -> packed b x = true /\ packed false y = true.
Proof.
  revert b. induction x as [|c x IH]; intros b H.
  - split; [done|]. destruct b; [by apply packed_weaken|done].
  - simpl in *. destruct (isSpace c).
    + apply andb_prop in H as [H1 H2]. apply IH in H2 as [H2 H3].
      by rewrite H1, H2.
    + by apply IH.
Qed.

Lemma packed_segment (a s b : jsstring) :
  packed false (a ++ s ++ b) = true -> packed false s = true.
Proof.
  intros H. apply packed_app in H as [_ H]. by apply packed_app in H as [H _].
Qed.

Lemma dropWhile_head {A} (f : A -> bool) (l : list A) (x : A) :
  dropWhile f l = l -> head l = Some x -> f x = false.
Proof.
  destruct l as [|y l]; [done|]. simpl. intros H [= ->].
  destruct (f x) eqn:E; [|done].
  pose proof (dropWhile_length f l) as Hl. rewrite H in Hl. simpl in Hl. lia.
Qed.

Lemma last_head_rev {A} (l : list A) : last l = head (rev l).
Proof.
  induction l as [|x l _] using rev_ind; [done|].
  by rewrite last_snoc, rev_app_distr.
Qed.

(** X8.  The shape of normalised code.  Its only white space is single
    spaces between other units: every white-space unit is a space, no two
    are next to each other, and there is none at either end. *)
Theorem normalizeCode_packed (code : jsstring) :
  packed false (normalizeCode code) = true
  /\ (forall c, head (normalizeCode code) = Some c -> isSpace c = false)
  /\ (forall c, last (normalizeCode code) = Some c -> isSpace c = false)
  /\ trim (normalizeCode code) = normalizeCode code.
Proof.
  unfold normalizeCode, trim.
  set (s := replaceAll spaces [32] 0 _).
  split; [|split; [|split]].
  - destruct (stripBoth_segment isSpace s) as (a & b & E).
    apply (packed_segment a _ b). rewrite <- E. apply replaceAll_spaces_packed.
  - intros c. apply dropWhile_head, stripBoth_start.
  - intros c. rewrite last_head_rev. apply dropWhile_head, stripBoth_end.
  - apply stripBoth_idemp.
Qed.

Lemma replaceAll_none (p : Pattern) (rep s : jsstring) :
  (forall t, (exists a, s = a ++ t) -> p t = 0%nat) -> replaceAll p rep 0 s = s.
Proof.
  induction s as [|c s IH]; intros H; [done|].
  rewrite replaceAll_cons, (H (c :: s)) by (by exists []).
  f_equal. apply IH. intros t [a ->]. apply H. by exists (c :: a).
Qed.

Lemma lineComment_slash (t : jsstring) :
  Forall (fun c => c <> 47) t -> lineComment t = 0%nat.
Proof.
  destruct t as [|c [|d r]]; [done|done|]. intros H. simpl.
  apply Forall_cons in H as [Hc _].
  by apply N.eqb_neq in Hc as ->.
Qed.

Lemma blockComment_slash (t : jsstring) :
  Forall (fun c => c <> 47) t -> blockComment t = 0%nat.
Proof.
  destruct t as [|c [|d r]]; [done|done|]. intros H. simpl.
  apply Forall_cons in H as [Hc _].
  by apply N.eqb_neq in Hc as ->.
Qed.

(** Without a slash there is no comment to remove. *)
Lemma comments_none (s : jsstring) :
  Forall (fun c => c <> 47) s ->
  replaceAll blockComment [] 0 (replaceAll lineComment [] 0 s) = s.
Proof.
  intros H.
  rewrite (replaceAll_none lineComment), (replaceAll_none blockComment); [done| |];
    intros t [a ->]; apply Forall_app in H as [_ H];
    [by apply blockComment_slash|by apply lineComment_slash].
Qed.

(** X9.  A submission made of white space only is blank: its normal form
    is the empty string, it has no tokens and [compareToReference] says
    that no code was provided, with score 0. *)
Theorem white_space_is_blank {arith : Binary64} (code refCode : jsstring) :
  Forall (fun c => isSpace c = true) code ->
  normalizeCode code = []
  /\ getTokens code = []
  /\ score (value (compareToReference code refCode)) = 0%Z
  /\ mistakes (value (compareToReference code refCode)) = [js "No code provided"].
Proof.
  intros Hs.
  assert (normalizeCode code = []) as Hn.
  { unfold normalizeCode. rewrite comments_none.
    - unfold trim, stripBoth.
      assert (dropWhile isSpace (replaceAll spaces [32] 0 code) = []) as ->; [|done].
      by apply dropWhile_all, replaceAll_Forall; [repeat constructor|].
    - eapply Forall_impl; [exact Hs|]. by intros c Hc ->. }
  split; [exact Hn|]. split.
  - unfold getTokens. by rewrite Hn.
  - unfold compareToReference. by rewrite Hn.
Qed.

Lemma replaceAll_app_none (p : Pattern) (rep a s : jsstring) :
  (forall x t, p (x ++ t) <> 0%nat -> x = [] \/ forall c, head x = Some c -> c = 47) ->
  Forall (fun c => c <> 47) a ->
  replaceAll p rep 0 (a ++ s) = a ++ replaceAll p rep 0 s.
Proof.
  intros Hp. induction a as [|c a IH]; intros H; [done|].
  apply Forall_cons in H as [Hc Ha].
  change ((c :: a) ++ s) with (c :: (a ++ s)). rewrite replaceAll_cons.
  destruct (p (c :: a ++ s)) eqn:E.
  - simpl. f_equal. by apply IH.
  - destruct (Hp (c :: a) s) as [?|Hx]; [simpl; by rewrite E|done|].
    by destruct Hc, (Hx c).
Qed.

Lemma lineComment_start (x t : jsstring) :
  lineComment (x ++ t) <> 0%nat -> x = [] \/ forall c, head x = Some c -> c = 47.
Proof.
  intros H. destruct x as [|c x]; [by left|]. right. intros d [= <-].
  simpl in H. destruct (x ++ t); [done|].
  destruct (N.eqb_spec c 47); [done|]. by destruct H.
Qed.

Lemma run_line (t s : jsstring) :
  Forall (fun c => c <> 10) t -> (s = [] \/ headIs 10 s = true) ->
  run (fun x => negb (x =? 10)) (t ++ s) = length t.
Proof.
  intros Ht Hs. induction Ht as [|c t Hc _ IH].
  - destruct Hs as [->|Hs]; [done|]. destruct s as [|c s]; [done|].
    simpl in Hs. cbn [app length]. rewrite run_cons. by rewrite Hs.
  - simpl. rewrite run_cons. apply N.eqb_neq in Hc as ->. simpl. by rewrite IH.
Qed.

(** X10.  A line comment is not part of the normal form.  Where no slash
    comes before it, the text from [//] up to the end of its line can be
    taken out without changing the normal form of the code, and so
    without changing its tokens. *)
Theorem line_comment_ignored (a t s : jsstring) :
  Forall (fun c => c <> 47) a ->
  Forall (fun c => c <> 10) t ->
  s = [] \/ headIs 10 s = true ->
  normalizeCode (a ++ js "//" ++ t ++ s) = normalizeCode (a ++ s)
  /\ getTokens (a ++ js "//" ++ t ++ s) = getTokens (a ++ s).
Proof.
  intros Ha Ht Hs.
  assert (normalizeCode (a ++ js "//" ++ t ++ s) = normalizeCode (a ++ s)) as Hn.
  { unfold normalizeCode.
    assert (replaceAll lineComment [] 0 (a ++ js "//" ++ t ++ s)
            = replaceAll lineComment [] 0 (a ++ s)) as ->; [|done].
    rewrite (replaceAll_app_none lineComment [] a s),
      (replaceAll_app_none lineComment [] a (js "//" ++ t ++ s))
      by (done || apply lineComment_start).
    f_equal.
    change (js "//" ++ t ++ s) with (47 :: 47 :: (t ++ s)).
    rewrite replaceAll_cons. cbn [lineComment N.eqb Pos.eqb andb].
    rewrite run_line by done. cbn [app].
    change (replaceAll lineComment [] (S (length t)) (47 :: t ++ s))
      with (replaceAll lineComment [] (length t) (t ++ s)).
    by rewrite replaceAll_skip, drop_app_length. }
  split; [exact Hn|]. unfold getTokens. by rewrite Hn.
Qed.

End CodeNormalizer.

(** ** More facts: the tokenizer *)
Section Tokens.

Lemma takeWhile_forallb (f : N -> bool) (s : jsstring) :
  forallb f (takeWhile f s) = true.
Proof. induction s as [|c s IH]; simpl; [done|]. destruct (f c) eqn:E; simpl; [by rewrite E|done]. Qed.

Lemma run_take_nonempty (f : N -> bool) (s : jsstring) (n : nat) :
  run f s = S n ->
  isEmpty (take (S n) s) = false /\ forallb f (take (S n) s) = true.
Proof.
  intros E. rewrite <- E, take_run. split; [|apply takeWhile_forallb].
  unfold run in E. by destruct (takeWhile f s).
Qed.

Lemma tokenPattern_kind (t : jsstring) (n : nat) :
  tokenPattern t = S n -> isToken (take (S n) t) = true.
Proof.
  unfold tokenPattern, identifier, punctuation, isToken.
  destruct t as [|c r]; [done|].
  destruct (isIdentStart c) eqn:Eid.
  { intros [= <-]. simpl take. rewrite take_run. unfold isIdentifier.
    by rewrite Eid, takeWhile_forallb. }
  destruct (run isDigit (c :: r)) eqn:Ed.
  2:{ intros [= <-]. destruct (run_take_nonempty _ _ _ Ed) as [H1 H2].
      unfold isNumber. rewrite H1, H2. simpl. by rewrite orb_true_r. }
  destruct (run isOperator (c :: r)) eqn:Eo.
  2:{ intros [= <-]. destruct (run_take_nonempty _ _ _ Eo) as [H1 H2].
      unfold isOperatorRun. rewrite H1, H2. simpl. by rewrite !orb_true_r. }
  destruct (isPunct c) eqn:Ep; [|done].
  intros [= <-]. simpl. rewrite take_0. unfold isPunctuation. rewrite Ep.
  by rewrite !orb_true_r.
Qed.

Ltac unit_facts :=
  repeat match goal with
  | H : _ = true |- _ =>
    cbn [existsb] in H;
    rewrite ?orb_true_iff, ?andb_true_iff, ?N.leb_le, ?N.eqb_eq, ?orb_false_r in H;
    revert H
  end;
  intros; lia.

Lemma isWord_not_space (c : N) : isWord c = true -> isSpace c = false.
Proof.
  intros H. destruct (isSpace c) eqn:E; [|done]. exfalso.
  unfold isWord, isIdentStart, isDigit in H. unfold isSpace in E. unit_facts.
Qed.

Lemma isOperator_not_space (c : N) : isOperator c = true -> isSpace c = false.
Proof.
  intros H. destruct (isSpace c) eqn:E; [|done]. exfalso.
  unfold isOperator in H. unfold isSpace in E. unit_facts.
Qed.

Lemma isPunct_not_space (c : N) : isPunct c = true -> isSpace c = false.
Proof.
  intros H. destruct (isSpace c) eqn:E; [|done]. exfalso.
  unfold isPunct in H. unfold isSpace in E. unit_facts.
Qed.

Lemma forallb_impl (f : N -> bool) (P : N -> Prop) (t : jsstring) :
  (forall c, f c = true -> P c) -> forallb f t = true -> Forall P t.
Proof.
  intros Hf. induction t as [|c t IH]; simpl; [constructor|].
  intros H. apply andb_prop in H as [H1 H2]. constructor; auto.
Qed.

Lemma isToken_shape (t : jsstring) :
  isToken t = true ->
  isEmpty t = false /\ Forall (fun c => isSpace c = false) t.
Proof.
  unfold isToken, isIdentifier, isNumber, isOperatorRun, isPunctuation.
  intros H. repeat apply orb_prop in H as [H|H].
  - destruct t as [|c r]; [done|]. apply andb_prop in H as [H1 H2].
    split; [done|]. constructor.
    + apply isWord_not_space. unfold isWord. by rewrite H1.
    + apply (forallb_impl isWord); [apply isWord_not_space|done].
  - apply andb_prop in H as [H1 H2]. split; [by destruct (isEmpty t)|].
    apply (forallb_impl isDigit); [|done]. intros c Hc.
    apply isWord_not_space. unfold isWord. rewrite Hc. apply orb_true_r.
  - apply andb_prop in H as [H1 H2]. split; [by destruct (isEmpty t)|].
    apply (forallb_impl isOperator); [apply isOperator_not_space|done].
  - destruct t as [|c [|d r]]; try done. split; [done|].
    constructor; [by apply isPunct_not_space|constructor].
Qed.

(** X11.  Every token is an identifier, a run of digits, a run of operator
    characters or one punctuation character; in particular no token is
    empty and no token holds white space. *)
Theorem getTokens_kinds (code : jsstring) :
  Forall (fun t => isToken t = true
                   /\ isEmpty t = false
                   /\ Forall (fun c => isSpace c = false) t)
         (getTokens code).
Proof.
  apply matchAll_Forall. intros t n E.
  pose proof (tokenPattern_kind t n E) as Hk.
  split; [exact Hk|]. by apply isToken_shape.
Qed.

End Tokens.

(** ** More facts: the similarity scorer *)
Section SimilarityLaws.
Local Open Scope Q_scope.

Context {arith : Binary64}.
Variable toLowerCase : jsstring -> jsstring.

Local Abbreviation lowered := (Spec.lowered toLowerCase).
Local Abbreviation similarity := (tokenSimilarity toLowerCase).

Lemma lowered_empty (a : list jsstring) : lowered a = ∅ <-> a = [].
Proof.
  split; [|by intros ->]. intros H. destruct a as [|t a]; [done|].
  pose proof (lowered_nonempty toLowerCase (t :: a)) as Hn.
  rewrite H, size_empty in Hn. specialize (Hn ltac:(done)). lia.
Qed.

(** X12.  The similarity of two token lists is the same in both
    directions. *)
Theorem tokenSimilarity_symmetric (a b : list jsstring) :
  similarity a b = similarity b a.
Proof.
  destruct a as [|t a], b as [|t' b]; try reflexivity.
  rewrite !tokenSimilarity_nonempty by done. unfold jaccard.
  by rewrite (comm_L (∩) (lowered (t :: a)) (lowered (t' :: b))),
     (comm_L (∪) (lowered (t :: a)) (lowered (t' :: b))).
Qed.

Lemma lowered_same_emptiness (a a' : list jsstring) :
  lowered a = lowered a' -> isEmpty a = isEmpty a'.
Proof.
  intros Ha.
  assert (a = [] <-> a' = []) as Hea by (rewrite <- !lowered_empty, Ha; tauto).
  destruct a as [|t a], a' as [|s a']; try done.
  - by destruct Hea as [H1 _]; specialize (H1 eq_refl).
  - by destruct Hea as [_ H2]; specialize (H2 eq_refl).
Qed.

Lemma tokenSimilarity_sets (a a' b b' : list jsstring) :
  lowered a = lowered a' -> lowered b = lowered b' ->
  similarity a b = similarity a' b'.
Proof.
  intros Ha Hb.
  pose proof (lowered_same_emptiness a a' Ha) as Hea.
  pose proof (lowered_same_emptiness b b' Hb) as Heb.
  destruct a as [|t a], a' as [|s a']; try done;
    destruct b as [|u b], b' as [|v b']; try done.
  rewrite !tokenSimilarity_nonempty by done. by rewrite Ha, Hb.
Qed.

(** X13.  The similarity depends on the two sets of case-lowered tokens
    only, whatever the order and the number of occurrences of the tokens;
    it is 1 when the two sets are equal. *)
Theorem tokenSimilarity_of_sets (a a' b b' : list jsstring) :
  lowered a = lowered a' -> lowered b = lowered b' ->
  similarity a b = similarity a' b'
  /\ (lowered a = lowered b -> similarity a b == 1).
Proof.
  intros Ha Hb. split; [by apply tokenSimilarity_sets|].
  intros E. rewrite (tokenSimilarity_sets a b b b E eq_refl).
  apply tokenSimilarity_self.
Qed.

(** X14.  Token lists without a common case-lowered token, not both empty,
    have similarity 0. *)
Theorem tokenSimilarity_disjoint (a b : list jsstring) :
  lowered a ∩ lowered b = ∅ ->
  isEmpty a && isEmpty b = false ->
  similarity a b == 0.
Proof.
  intros Hd Hne. destruct a as [|t a], b as [|t' b]; try done.
  rewrite tokenSimilarity_nonempty by done. unfold jaccard.
  rewrite Hd, size_empty. apply ratio_zero.
Qed.

End SimilarityLaws.

(** ** More facts: the structural checker *)
Section StructureFindings.
Local Open Scope Z_scope.

Lemma rule_mistakes (violated : bool) (message : jsstring) (points : Z)
      (acc : StructureCheck.t) :
  StructureCheck.mistakes (StructureCheck.rule violated message points acc)
  = StructureCheck.mistakes acc ++ (if violated then [message] else []).
Proof. destruct violated; simpl; [done|by rewrite app_nil_r]. Qed.

(** The findings are the messages of the rules violated, in the order
    of the rules. *)
Lemma checkStructure_mistakes (userCode refCode : jsstring) :
  StructureCheck.mistakes (checkStructure userCode refCode)
  = (if negb (test (callOf (js "main")) None userCode)
     then [js "Missing main() function"] else [])
    ++ (if test ioCall None refCode && negb (test includeStdio None userCode)
        then [js "Missing #include <stdio.h>"] else [])
    ++ (if negb (countUnit 123 userCode =? countUnit 125 userCode)%nat
        then [js "Unbalanced braces"] else [])
    ++ (if test (callOf (js "switch")) None refCode
           && negb (test (callOf (js "switch")) None userCode)
        then [js "Problem requires switch statement"] else [])
    ++ (if test modulo2 None refCode && negb (test percent None userCode)
        then [js "Use modulo operator (%) for even/odd check"] else [])
    ++ (if test (callOf (js "fgets")) None refCode
           && test (callOf (js "gets")) None userCode
        then [js "Use fgets() instead of gets()"] else []).
Proof.
  unfold checkStructure. cbv zeta. rewrite !rule_mistakes.
  cbn [StructureCheck.mistakes app]. by rewrite <- !app_assoc.
Qed.

Ltac rule_cases :=
  rewrite ?checkStructure_penalties, ?checkStructure_mistakes;
  repeat match goal with |- context [if ?b then _ else _] => destruct b end.

(** X15.  The penalty lies between 0 and 95 and is a multiple of 5, there
    are at most six findings, and there is no finding exactly when the
    penalty is 0. *)
Theorem checkStructure_penalty_range (userCode refCode : jsstring) :
  let check := checkStructure userCode refCode in
  0 <= StructureCheck.penalties check <= 95
  /\ StructureCheck.penalties check mod 5 = 0
  /\ (length (StructureCheck.mistakes check) <= 6)%nat
  /\ isEmpty (StructureCheck.mistakes check) = (StructureCheck.penalties check =? 0).
Proof.
  cbv zeta. rule_cases; cbn [app length isEmpty Nat.eqb];
    repeat split; try reflexivity; lia.
Qed.

Lemma sublist_option (b : bool) (m : jsstring) :
  (if b then [m] else []) `sublist_of` [m].
Proof. destruct b; [done|apply sublist_nil_l]. Qed.

(** X16.  The findings come in the order of the rules, and the finding of a
    rule is there exactly when the rule is violated. *)
Theorem checkStructure_findings (userCode refCode : jsstring) :
  let found := StructureCheck.mistakes (checkStructure userCode refCode) in
  found `sublist_of` ruleMessages
  /\ existsb (eqb (js "Missing main() function")) found
     = negb (test (callOf (js "main")) None userCode)
  /\ existsb (eqb (js "Missing #include <stdio.h>")) found
     = test ioCall None refCode && negb (test includeStdio None userCode)
  /\ existsb (eqb (js "Unbalanced braces")) found
     = negb (countUnit 123 userCode =? countUnit 125 userCode)%nat
  /\ existsb (eqb (js "Problem requires switch statement")) found
     = test (callOf (js "switch")) None refCode
       && negb (test (callOf (js "switch")) None userCode)
  /\ existsb (eqb (js "Use modulo operator (%) for even/odd check")) found
     = test modulo2 None refCode && negb (test percent None userCode)
  /\ existsb (eqb (js "Use fgets() instead of gets()")) found
     = test (callOf (js "fgets")) None refCode
       && test (callOf (js "gets")) None userCode.
Proof.
  cbv zeta. split.
  - rewrite checkStructure_mistakes.
    change ruleMessages with
      ([js "Missing main() function"] ++ [js "Missing #include <stdio.h>"]
       ++ [js "Unbalanced braces"] ++ [js "Problem requires switch statement"]
       ++ [js "Use modulo operator (%) for even/odd check"]
       ++ [js "Use fgets() instead of gets()"]).
    repeat apply sublist_app; apply sublist_option.
  - rewrite checkStructure_mistakes.
    generalize (negb (test (callOf (js "main")) None userCode)).
    generalize (test ioCall None refCode && negb (test includeStdio None userCode)).
    generalize (negb (countUnit 123 userCode =? countUnit 125 userCode)%nat).
    generalize (test (callOf (js "switch")) None refCode
                && negb (test (callOf (js "switch")) None userCode)).
    generalize (test modulo2 None refCode && negb (test percent None userCode)).
    generalize (test (callOf (js "fgets")) None refCode
                && test (callOf (js "gets")) None userCode).
    intros [] [] [] [] [] []; vm_compute; repeat split; reflexivity.
Qed.

End StructureFindings.

(** ** More facts: the grading orchestrator *)
Section Orchestration.
Local Open Scope Z_scope.

Context {arith : Binary64}.

Variable problems : list Problems.ProblemEntry.
Variable findMatchingProblem :
  jsstring -> list Problems.ProblemEntry -> option Problems.ProblemEntry.
Variable execute : jsstring -> jsstring -> RunResult.

Local Abbreviation grade := (validateCCode problems findMatchingProblem execute).

(** The five paths of [grade problem code], as in the facts above. *)
Ltac grade_cases problem code :=
  let e := fresh "entry" in
  unfold validateCCode;
  destruct (findMatchingProblem problem problems) as [e|] eqn:Hfind;
  [ destruct (hasOutputCheck e) eqn:Hcheck;
    [ cbn [bind call calls value];
      destruct (negb (success (execute code (default [] (Problems.stdin e))))
                && negb (isEmpty (stderr (execute code (default [] (Problems.stdin e))))))
        eqn:Hfail;
      [ | cbn [bind call calls value];
          destruct (outputsMatch
                      (stdout (execute code (default [] (Problems.stdin e))))
                      (default [] (Problems.expectedOutput e))) eqn:Hmatch ]
    | ]
  | ];
  cbn [bind call calling ret calls value negb
       score mistakes summary matchedProblem userOutput expectedOutput outputMatched].

Lemma Math_round_le_60 (x : Q) : (x <= 60)%Q -> Math_round x <= 60.
Proof.
  intros Hx. unfold Math_round. change 60 with (Qfloor (60 + (1 # 2))).
  apply Qfloor_resp_le. by apply Qplus_le_l.
Qed.

Lemma composedScore_cap (u r : jsstring) :
  composedScore u r
  <= 60 + Z.max 0 (40 - StructureCheck.penalties (checkStructure u r)).
Proof.
  unfold composedScore.
  pose proof (tokenSimilarity_bounds asciiToLowerCase (getTokens u) (getTokens r))
    as [_ H1].
  assert (Math_round
            (mul (tokenSimilarity asciiToLowerCase (getTokens u) (getTokens r)) 60)
          <= 60).
  { apply Math_round_le_60. unfold mul.
    apply Qle_trans with (fl 60); [|rewrite fl_60; apply Qle_refl].
    apply fl_monotone.
    rewrite <- (Qmult_1_l 60) at 2. apply Qmult_le_compat_r; [done|discriminate]. }
  lia.
Qed.

(** X17.  Structural findings cap the score.  For a matched problem the
    score is at most 60 plus what is left of the 40 structural points; a
    submission without a call of [main] gets at most 75, one with
    unbalanced braces at most 80. *)
Theorem score_capped_by_structure
  (problem code : jsstring) (entry : Problems.ProblemEntry) :
  findMatchingProblem problem problems = Some entry ->
  let penalty :=
    StructureCheck.penalties (checkStructure code (Problems.solution entry)) in
  score (value (grade problem code)) <= 60 + Z.max 0 (40 - penalty)
  /\ (test (callOf (js "main")) None code = false ->
      score (value (grade problem code)) <= 75)
  /\ ((countUnit 123 code =? countUnit 125 code)%nat = false ->
      score (value (grade problem code)) <= 80).
Proof.
  intros Hentry penalty.
  assert (score (value (grade problem code)) <= 60 + Z.max 0 (40 - penalty)) as Hcap.
  { subst penalty.
    pose proof (compareToReference_score code (Problems.solution entry)) as Hs.
    pose proof (composedScore_cap code (Problems.solution entry)) as Hc.
    revert Hs Hc.
    grade_cases problem code; inversion Hentry; subst; intros Hs Hc; try lia;
      rewrite Hs; destruct (blankSubmission code); lia. }
  split; [exact Hcap|]. subst penalty.
  rewrite checkStructure_penalties in Hcap.
  split; intros Hv; rewrite Hv in Hcap; cbn [negb] in Hcap;
    repeat match type of Hcap with context [if ?b then _ else _] => destruct b end;
    lia.
Qed.


(** X19.  The optional fields go together.  [matchedProblem] is the text of
    the record found; [expectedOutput] and [outputMatched] are set exactly
    when the submission was executed, [userOutput] only then; and a result
    with [outputMatched] true carries the output that matched. *)
Theorem optional_fields (problem code : jsstring) :
  let result := value (grade problem code) in
  let executed := existsb isExecution (calls (grade problem code)) in
  matchedProblem result = Problems.problem <$> findMatchingProblem problem problems
  /\ bool_decide (is_Some (outputMatched result)) = executed
  /\ bool_decide (is_Some (expectedOutput result)) = executed
  /\ (is_Some (userOutput result) -> executed = true)
  /\ (outputMatched result = Some true ->
      exists entry,
        findMatchingProblem problem problems = Some entry
        /\ userOutput result
           = Some (stdout (execute code (default [] (Problems.stdin entry))))
        /\ expectedOutput result = Problems.expectedOutput entry
        /\ outputsMatch (stdout (execute code (default [] (Problems.stdin entry))))
                        (default [] (Problems.expectedOutput entry)) = true).
Proof.
  cbv zeta.
  pose proof (compareToReference_optional_fields code) as Hopt.
  pose proof (compareToReference_calls code) as Hc.
  grade_cases problem code;
    try (destruct (Hopt (Problems.solution entry)) as (Hu & He & Hm);
         rewrite ?Hu, ?He, ?Hm);
    rewrite ?Hc; try destruct (blankSubmission code);
    cbn [app existsb isExecution orb fmap option_fmap option_map];
    try (unfold hasOutputCheck in Hcheck;
         destruct (Problems.expectedOutput entry) as [[|c e]|] eqn:Hexp;
         try discriminate Hcheck);
    (split; [reflexivity|]);
    (split; [by rewrite ?bool_decide_eq_true, ?bool_decide_eq_false;
                first [ eexists | intros [? [=]] ] |]);
    (split; [by rewrite ?bool_decide_eq_true, ?bool_decide_eq_false;
                first [ eexists | intros [? [=]] ] |]);
    (split; [first [ done | by intros [? [=]] ] |]);
    try discriminate.
  all: intros _; exists entry; rewrite Hexp; by repeat split.
Qed.

(** X20.  A positive score tells the whole story.  It is given only for a
    matched problem and a submission that is not blank; it is the composed
    score; no output check failed; and when the record has an expected
    output, the submission was executed and its output matched. *)
Theorem positive_score (problem code : jsstring) :
  0 < score (value (grade problem code)) ->
  exists entry,
    findMatchingProblem problem problems = Some entry
    /\ blankSubmission code = false
    /\ score (value (grade problem code)) = composedScore code (Problems.solution entry)
    /\ outputMatched (value (grade problem code))
       = (if hasOutputCheck entry then Some true else None)
    /\ (hasOutputCheck entry = true ->
        outputsMatch (stdout (execute code (default [] (Problems.stdin entry))))
                     (default [] (Problems.expectedOutput entry)) = true).
Proof.
  pose proof (compareToReference_score code) as Hs.
  pose proof (compareToReference_optional_fields code) as Hopt.
  revert Hs Hopt.
  grade_cases problem code; intros Hs Hopt Hpos; try lia;
    rewrite Hs in Hpos |- *; destruct (blankSubmission code); try lia;
    exists entry; (split; [reflexivity|]); (split; [reflexivity|]);
    (split; [reflexivity|]); rewrite Hcheck; split; try done.
  apply Hopt.
Qed.

(** X21.  Run shows what validation checks.  Whatever was shown before,
    after a run the page shows the output of one execution, done even
    for a problem that is not in the store (then with an empty [stdin]);
    the expected output it shows is the [expectedOutput] of the validation
    result for the same store, problem and code; and an output reported
    by the validation, the execution service answering alike, is the
    [stdout] shown. *)
Theorem run_shows_what_validation_checks
  (problem code : jsstring) (before : App.View) :
  let shown := App.handleRun problems findMatchingProblem execute problem code before in
  let result := value (validateCCode problems findMatchingProblem execute problem code) in
  let stdin := default [] (findMatchingProblem problem problems ≫= Problems.stdin) in
  App.isRunning shown = false
  /\ App.runOutput shown
     = Some {| App.stdout := stdout (execute code stdin);
               App.stderr := stderr (execute code stdin) |}
  /\ App.expectedOutput shown = expectedOutput result
  /\ (forall output, userOutput result = Some output ->
      App.stdout <$> App.runOutput shown = Some output).
Proof.
  cbv zeta. unfold App.handleRun.
  pose proof (compareToReference_optional_fields code) as Hopt.
  grade_cases problem code;
    try (destruct (Hopt (Problems.solution entry)) as (Hu & He & Hm);
         rewrite ?Hu, ?He);
    try (unfold hasOutputCheck in Hcheck;
         destruct (Problems.expectedOutput entry) as [[|c e]|] eqn:Hexp;
         try discriminate Hcheck);
    cbn [mbind option_bind]; rewrite ?Hexp;
    cbn [App.setIsRunning App.setRunOutput App.setExpectedOutput
         App.isRunning App.runOutput App.expectedOutput fmap option_fmap option_map
         App.stdout];
    (split; [reflexivity|]); (split; [reflexivity|]); (split; [reflexivity|]);
    intros output; try discriminate; try (by intros [= <-]).
  all: intros E;
    destruct (isEmpty (stdout (execute code (default [] (Problems.stdin entry)))));
    [discriminate E|exact E].
Qed.

End Orchestration.

(** ** More facts: the orchestrator over [runCCode] *)
Section Unavailable.
Local Open Scope Z_scope.

Context {arith : Binary64}.

Variable problems : list Problems.ProblemEntry.
Variable findMatchingProblem :
  jsstring -> list Problems.ProblemEntry -> option Problems.ProblemEntry.
Variable net : Network.

Lemma normalizeOutput_nil : normalizeOutput [] = [].
Proof. reflexivity. Qed.

Lemma eqb_nil_l (s : jsstring) : Js.eqb [] s = isEmpty s.
Proof. by destruct s. Qed.

(** X22.  When the request to the execution service fails (a rejected
    [fetch] or an HTTP error status), the orchestrator does not report
    it: [error] is not looked at, the run counts as one that printed
    nothing.  So, for a record with an expected output, the result is a
    wrong answer with score 0 quoting an empty output, unless the expected
    output normalises to the empty string. *)
Theorem request_failure_is_wrong_answer
  (problem code : jsstring) (entry : Problems.ProblemEntry) :
  findMatchingProblem problem problems = Some entry ->
  hasOutputCheck entry = true ->
  (forall run message,
     net code (default [] (Problems.stdin entry)) <> Answered run message) ->
  let expected := default [] (Problems.expectedOutput entry) in
  let result :=
    value (validateCCode problems findMatchingProblem (runCCode net) problem code) in
  userOutput result = Some []
  /\ outputMatched result = Some (isEmpty (normalizeOutput expected))
  /\ (isEmpty (normalizeOutput expected) = false ->
      score result = 0
      /\ mistakes result
         = [js "Wrong answer. Output does not match the expected result.";
            js "Your output: " ++ quote ++ quote;
            js "Expected: " ++ quote ++ excerpt (normalizeOutput expected) expected
              ++ quote]).
Proof.
  intros Hfind Hcheck Hnet expected result. subst result expected.
  unfold validateCCode. rewrite Hfind, Hcheck. cbn [bind call calls value].
  assert (runCCode net code (default [] (Problems.stdin entry))
          = {| success := false; stdout := []; stderr := [];
               error := error (runCCode net code (default [] (Problems.stdin entry))) |})
    as ->.
  { unfold runCCode.
    destruct (net code (default [] (Problems.stdin entry))) as [m|st|run msg] eqn:E;
      [reflexivity|reflexivity|by destruct (Hnet run msg)]. }
  cbn [success stderr stdout isEmpty length Nat.eqb negb andb bind call calls value].
  unfold outputsMatch. rewrite normalizeOutput_nil, eqb_nil_l.
  destruct (isEmpty (normalizeOutput (default [] (Problems.expectedOutput entry))));
    cbn [negb bind call calling ret calls value
         score mistakes userOutput outputMatched].
  - split; [reflexivity|]. split; [reflexivity|]. discriminate.
  - split; [reflexivity|]. split; [reflexivity|]. intros _.
    split; [reflexivity|]. reflexivity.
Qed.

End Unavailable.

(** ** More facts: what the findings quote *)
Section Quotations.

Lemma countUnit_cons (c x : N) (s : jsstring) :
  countUnit c (x :: s) = if x =? c then S (countUnit c s) else countUnit c s.
Proof.
  unfold countUnit. rewrite (filter_cons (fun y => y = c) x s).
  destruct (N.eqb_spec x c); destruct (decide (x = c)); done.
Qed.

(** The first [S n] lines, unit by unit. *)
Lemma first_lines_cons (n : nat) (c : N) (s : jsstring) :
  join [10] (take (S n) (split 10 (c :: s)))
  = if c =? 10
    then match n with
         | O => []
         | S m => 10 :: join [10] (take (S m) (split 10 s))
         end
    else c :: join [10] (take (S n) (split 10 s)).
Proof.
  rewrite split_cons, (split_hd_tl s). destruct (c =? 10).
  - destruct n as [|m]; reflexivity.
  - cbn [take hd tail]. by destruct (take n (tail (split 10 s))).
Qed.

Lemma first_lines (n : nat) (s : jsstring) :
  let e := join [10] (take (S n) (split 10 s)) in
  ((countUnit 10 s <= n)%nat /\ e = s)
  \/ (countUnit 10 e = n /\ exists rest, s = e ++ 10 :: rest).
Proof.
  cbv zeta. revert n. induction s as [|c s IH]; intros n.
  - left. split; [apply Nat.le_0_l|by destruct n].
  - rewrite first_lines_cons, countUnit_cons. destruct (N.eqb_spec c 10) as [->|Hc].
    + destruct n as [|m].
      * right. split; [done|]. by exists s.
      * destruct (IH m) as [[H1 H2]|[H1 [rest H2]]].
        -- left. split; [lia|]. by rewrite H2.
        -- right. rewrite countUnit_cons. simpl. split; [by rewrite H1|].
           exists rest. by rewrite H2 at 1.
    + destruct (IH n) as [[H1 H2]|[H1 [rest H2]]].
      * left. split; [done|]. by rewrite H2.
      * right. rewrite countUnit_cons. apply N.eqb_neq in Hc as ->.
        split; [done|]. exists rest. simpl. by rewrite H2 at 1.
Qed.

(** X23.  What is quoted of a failed run.  The finding made from [stderr]
    is [stderr] itself when it has at most two line breaks; otherwise it
    is [stderr] up to its third line break, which is left out. *)
Theorem stderr_excerpt (stderr : jsstring) :
  let quoted := join [10] (slice0 3 (split 10 stderr)) in
  ((countUnit 10 stderr <= 2)%nat /\ quoted = stderr)
  \/ (countUnit 10 quoted = 2%nat /\ exists rest, stderr = quoted ++ 10 :: rest).
Proof. apply (first_lines 2). Qed.

Lemma replaceAll_length (p : Pattern) (rep s : jsstring) (k : nat) :
  (length rep <= 1)%nat -> (length (replaceAll p rep k s) <= length s)%nat.
Proof.
  intros Hrep. revert k. induction s as [|c s IH]; intros k; [done|].
  simpl. destruct k as [|k]; [|specialize (IH k); lia].
  destruct (p (c :: s)) as [|j].
  - simpl. specialize (IH 0%nat). lia.
  - rewrite length_app. specialize (IH j). lia.
Qed.

Lemma dropWhile_le {A} (f : A -> bool) (l : list A) :
  (length (dropWhile f l) <= length l)%nat.
Proof. induction l as [|x l IH]; simpl; [done|]. destruct (f x); simpl; lia. Qed.

Lemma trim_length (s : jsstring) : (length (trim s) <= length s)%nat.
Proof.
  unfold trim, stripBoth. rewrite length_rev.
  etransitivity; [apply dropWhile_le|]. rewrite length_rev. apply dropWhile_le.
Qed.

Lemma join_split (s : jsstring) : join [10] (split 10 s) = s.
Proof.
  induction s as [|c s IH]; [done|].
  rewrite split_cons. rewrite (split_hd_tl s) in IH |- *.
  destruct (N.eqb_spec c 10) as [->|Hc].
  - rewrite join_cons by done. by rewrite IH.
  - change (hd [] (?x :: _)) with x. change (tl (_ :: ?x)) with x.
    destruct (tl (split 10 s)); simpl in *; by rewrite IH.
Qed.

Lemma join_trim_length (ls : list jsstring) :
  (length (join [10%N] (map trim ls)) <= length (join [10%N] ls))%nat.
Proof.
  induction ls as [|l ls IH]; [done|].
  destruct ls as [|l' ls']; [apply trim_length|].
  change (map trim (l :: l' :: ls')) with (trim l :: map trim (l' :: ls')).
  rewrite !join_cons by done. rewrite !length_app. simpl.
  pose proof (trim_length l). simpl in IH. lia.
Qed.

Lemma normalizeOutput_length (s : jsstring) :
  (length (normalizeOutput s) <= length s)%nat.
Proof.
  unfold normalizeOutput.
  etransitivity; [apply trim_length|].
  etransitivity; [apply join_trim_length|]. rewrite join_split.
  etransitivity; [apply replaceAll_length; simpl; lia|].
  etransitivity; [apply replaceAll_length; simpl; lia|].
  apply replaceAll_length; simpl; lia.
Qed.

(** X24.  What is quoted of an output.  Normalising never lengthens an
    output, so an output of at most 200 units is quoted in full, in its
    normal form.  A longer one is cut to the first 200 units of its normal
    form followed by an ellipsis, whether or not anything was cut: the
    quotation never has more than 203 units. *)
Theorem output_excerpt (raw : jsstring) :
  let quoted := excerpt (normalizeOutput raw) raw in
  (length (normalizeOutput raw) <= length raw)%nat
  /\ (length quoted <= 203)%nat
  /\ quoted
     = if (200 <? length raw)%nat
       then take 200 (normalizeOutput raw) ++ js "..."
       else normalizeOutput raw.
Proof.
  cbv zeta. pose proof (normalizeOutput_length raw) as Hlen.
  split; [exact Hlen|]. unfold excerpt, slice0.
  destruct (Nat.ltb_spec 200 (length raw)) as [Hl|Hl].
  - split; [|done]. rewrite length_app, length_take.
    change (length (js "...")) with 3%nat. lia.
  - rewrite app_nil_r, take_ge by lia. split; [lia|done].
Qed.

End Quotations.

(** ** More facts: the heuristic validator *)
Section HeuristicFacts.
Local Open Scope Z_scope.

Lemma mainDefinition_call (prev : option N) (s : jsstring) :
  Heuristics.mainDefinition prev s = true -> callOf (js "main") prev s = true.
Proof.
  unfold Heuristics.mainDefinition, callOf. destruct (wordStart prev); [|done].
  destruct (after (js "main") s) as [r|]; [|done]. simpl.
  destruct (dropWhile isSpace r) as [|c r1]; [done|]. simpl.
  intros H. by apply andb_prop in H as [H _].
Qed.

Lemma heuristic_rule_score (b : bool) (m : jsstring) (p : Z) (acc : list jsstring * Z) :
  (Heuristics.rule b m p acc).2 = acc.2 - (if b then p else 0).
Proof. destruct b; simpl; lia. Qed.

Lemma heuristic_rule_mistakes (b : bool) (m : jsstring) (p : Z) (acc : list jsstring * Z) :
  (Heuristics.rule b m p acc).1 = acc.1 ++ (if b then [m] else []).
Proof. destruct b; simpl; by rewrite ?app_nil_r. Qed.

Local Abbreviation sentinel := (js "No major mistakes detected").

Lemma not_sentinel (c : N) (m : jsstring) :
  c <> 78%N -> head m = Some c -> m <> sentinel.
Proof. intros Hc Hm E. rewrite E in Hm. vm_compute in Hm. congruence. Qed.

(** X25.  The range of the heuristic score.  A submission that is not blank
    scores a multiple of 5 between 15 and 100: the check for a missing
    [main] and the advice to return 0 exclude each other, so at most 85
    points are taken off and the clamp to [0, 100] never acts.  The score
    is 100 exactly when nothing was found, and the findings are never an
    empty list. *)
Theorem heuristic_score (code : jsstring) :
  let result := Heuristics.validateCCode code in
  isEmpty (Heuristics.mistakes result) = false
  /\ if isEmpty (trim code)
     then Heuristics.score result = 0
     else 15 <= Heuristics.score result <= 100
          /\ Heuristics.score result mod 5 = 0
          /\ (Heuristics.score result = 100
              <-> Heuristics.mistakes result = [sentinel]).
Proof.
  cbv zeta. unfold Heuristics.validateCCode.
  destruct (isEmpty (trim code)); [done|].
  pose proof (test_mono _ _ None code mainDefinition_call) as Hmain.
  cbn [Heuristics.score Heuristics.mistakes].
  rewrite !heuristic_rule_score, !heuristic_rule_mistakes. cbn [fst snd app].
  destruct (test (callOf (js "main")) None code);
    [|destruct (test Heuristics.mainDefinition None code);
      [by specialize (Hmain eq_refl)|]]; clear Hmain; cbn [negb andb].
  all: match goal with
       | |- context [if ?b && negb (test includeStdio None ?c) then _ else _] =>
         generalize (b && negb (test includeStdio None c))
       end; intros b2.
  all: try match goal with
       | |- context [test Heuristics.mainDefinition None ?c && ?x && ?y] =>
         generalize (test Heuristics.mainDefinition None c && x && y)
       end; try intros b3.
  all: generalize (negb (countUnit 123 code =? countUnit 125 code)%nat); intros b4.
  all: generalize (test Heuristics.getsCall None code); intros b5.
  all: match goal with
       | |- context [test Heuristics.intDeclaration None ?c && ?x && ?y] =>
         generalize (test Heuristics.intDeclaration None c && x && y)
       end; intros b6.
  all: lazymatch goal with
       | |- context [js "Unbalanced braces: " ++ ?x] =>
         assert (js "Unbalanced braces: " ++ x <> sentinel) as H4
           by (apply (not_sentinel 85); [done|reflexivity]);
         revert H4; generalize (js "Unbalanced braces: " ++ x); intros m4 H4
       end.
  all: try lazymatch goal with
       | |- context [js "Consider adding " ++ ?x] =>
         assert (js "Consider adding " ++ x <> sentinel) as H3
           by (apply (not_sentinel 67); [done|reflexivity]);
         revert H3; generalize (js "Consider adding " ++ x); intros m3 H3
       end.
  all: pose proof (not_sentinel 77
         (js "Missing main() function - C programs must have an entry point")
         ltac:(done) eq_refl) as H1;
       pose proof (not_sentinel 77
         (js "Missing #include <stdio.h> when using printf/scanf")
         ltac:(done) eq_refl) as H2;
       pose proof (not_sentinel 65
         (js "Avoid gets() - use fgets() instead (gets is unsafe)")
         ltac:(done) eq_refl) as H5;
       pose proof (not_sentinel 67
         (js "Code appears incomplete - ensure all logic is implemented")
         ltac:(done) eq_refl) as H6.
  all: revert H1 H2 H5 H6;
       generalize (js "Missing main() function - C programs must have an entry point");
       generalize (js "Missing #include <stdio.h> when using printf/scanf");
       generalize (js "Avoid gets() - use fgets() instead (gets is unsafe)");
       generalize (js "Code appears incomplete - ensure all logic is implemented");
       intros m6 m5 m2 m1 H1 H2 H5 H6.
  all: try destruct b3; destruct b2, b4, b5, b6; cbn [app isEmpty length Nat.eqb];
       (split; [reflexivity|]); (split; [lia|]); (split; [reflexivity|]);
       split; intros E; try lia; try reflexivity; try congruence.
Qed.

Lemma test_app (p : option N -> jsstring -> bool) (prev : option N) (a s : jsstring) :
  (forall q, p q s = true) -> test p prev (a ++ s) = true.
Proof.
  intros Hp. revert prev. induction a as [|c a IH]; intros prev.
  - destruct s; simpl; by rewrite Hp.
  - simpl. rewrite IH. apply orb_true_r.
Qed.

Lemma dropWhile_In {A} (f : A -> bool) (x : A) (l : list A) :
  f x = false -> In x l -> In x (dropWhile f l).
Proof.
  intros Hx. induction l as [|y l IH]; [done|]. simpl.
  destruct (f y) eqn:Hy; [|done]. intros [->|H]; [congruence|by apply IH].
Qed.

Lemma stripBoth_In {A} (f : A -> bool) (x : A) (l : list A) :
  f x = false -> In x l -> In x (stripBoth f l).
Proof.
  intros Hx H. unfold stripBoth.
  rewrite <- in_rev. apply dropWhile_In; [done|].
  rewrite <- in_rev. by apply dropWhile_In.
Qed.

(** X26.  [fgets] is taken for [gets].  The pattern for [gets] has no word
    boundary, so every submission that calls [fgets(] is told to avoid
    [gets()] and loses 15 points. *)
Theorem fgets_is_flagged (a b : jsstring) :
  let result := Heuristics.validateCCode (a ++ js "fgets(" ++ b) in
  In (js "Avoid gets() - use fgets() instead (gets is unsafe)")
     (Heuristics.mistakes result)
  /\ Heuristics.score result <= 85.
Proof.
  cbv zeta. set (code := a ++ js "fgets(" ++ b).
  assert (test Heuristics.getsCall None code = true) as Hgets.
  { subst code. change (js "fgets(" ++ b) with ([102%N] ++ (js "gets(" ++ b)).
    rewrite app_assoc. by apply test_app. }
  assert (isEmpty (trim code) = false) as Hblank.
  { assert (In 102%N (trim code)) as Hin.
    { apply stripBoth_In; [done|]. subst code. apply in_app_iff. right. by left. }
    by destruct (trim code). }
  unfold Heuristics.validateCCode. rewrite Hblank, Hgets.
  cbn [Heuristics.score Heuristics.mistakes].
  rewrite !heuristic_rule_score, !heuristic_rule_mistakes. cbn [fst snd].
  split.
  - match goal with
    | |- In ?m (if isEmpty ?l then _ else _) =>
      assert (In m l) as Hin
        by (apply in_app_iff; left; apply in_app_iff; right; by left);
      destruct l; [done|exact Hin]
    end.
  - repeat match goal with |- context [if ?c then _ else _] => destruct c end; lia.
Qed.

End HeuristicFacts.

(** ** More sample runs *)
Section MoreSampleRuns.
Import Samples.
#[local] Existing Instance exactArithmetic.

Lemma normalizeOutput_blank_witness :
  normalizeOutput [32; 10; 9; 13] = [] /\ outputsMatch [32; 10; 9; 13] [] = true.
Proof. apply normalizeOutput_blank. by repeat constructor. Defined.

Lemma normalizeOutput_line_endings_witness :
  outputsMatch (toCRLF (js "1 2" ++ [10] ++ js "3")) (js "1 2" ++ [10] ++ js "3") = true
  /\ outputsMatch (toCR (js "1 2" ++ [10] ++ js "3")) (js "1 2" ++ [10] ++ js "3") = true.
Proof.
  apply (normalizeOutput_line_endings (js "1 2" ++ [10] ++ js "3")).
  by repeat constructor.
Defined.

Lemma normalizeOutput_surrounding_witness :
  outputsMatch ([32; 10] ++ js "42" ++ [13; 10]) (js "42") = true.
Proof.
  apply (normalizeOutput_surrounding [32; 10] (js "42") [13; 10]);
    by repeat constructor.
Defined.

Lemma runCCode_failure_witness :
  isEmpty (stderr (runCCode netDown refMain [])) = true.
Proof. exact (proj1 (runCCode_failure netDown refMain [] eq_refl)). Defined.

Lemma white_space_is_blank_witness :
  normalizeCode [32; 10; 9] = [] /\ getTokens [32; 10; 9] = [].
Proof.
  destruct (white_space_is_blank [32; 10; 9] refMain) as (H1 & H2 & _);
    [by repeat constructor|]. by split.
Defined.

Lemma line_comment_ignored_witness :
  getTokens (js "int x; " ++ js "//" ++ js " note" ++ [10] ++ js "int y;")
  = getTokens (js "int x; " ++ [10] ++ js "int y;").
Proof.
  apply (line_comment_ignored (js "int x; ") (js " note") ([10] ++ js "int y;")).
  - by repeat constructor.
  - by repeat constructor.
  - right. reflexivity.
Defined.

Lemma tokenSimilarity_of_sets_witness :
  tokenSimilarity asciiToLowerCase [js "A"; js "b"] [js "c"]
  = tokenSimilarity asciiToLowerCase [js "b"; js "a"; js "a"] [js "C"; js "c"].
Proof.
  apply (tokenSimilarity_of_sets asciiToLowerCase
           [js "A"; js "b"] [js "b"; js "a"; js "a"] [js "c"] [js "C"; js "c"]);
    vm_compute; reflexivity.
Defined.

Lemma tokenSimilarity_disjoint_witness :
  (tokenSimilarity asciiToLowerCase [js "x"] [js "y"] == 0)%Q.
Proof.
  apply (tokenSimilarity_disjoint asciiToLowerCase [js "x"] [js "y"]);
    vm_compute; reflexivity.
Defined.

Lemma score_capped_by_structure_witness :
  (score (value (validateCCode [entryWith None] findExact (runCCode netDown)
                   (js "Return zero.") (js "int x;"))) <= 75)%Z.
Proof.
  exact (proj1 (proj2 (score_capped_by_structure [entryWith None] findExact
                         (runCCode netDown) (js "Return zero.") (js "int x;")
                         (entryWith None) eq_refl)) eq_refl).
Defined.

Lemma positive_score_witness :
  exists entry,
    findExact (js "Return zero.") [entryWith None] = Some entry
    /\ blankSubmission (js "int x;") = false.
Proof.
  destruct (positive_score [entryWith None] findExact (runCCode netDown)
              (js "Return zero.") (js "int x;")) as (entry & H1 & H2 & _).
  - vm_compute. reflexivity.
  - by exists entry.
Defined.

Lemma request_failure_is_wrong_answer_witness :
  userOutput (value (validateCCode [entryWith (Some (js "7"))] findExact
                       (runCCode netDown) (js "Return zero.") refMain)) = Some []
  /\ outputMatched (value (validateCCode [entryWith (Some (js "7"))] findExact
                             (runCCode netDown) (js "Return zero.") refMain))
     = Some false.
Proof.
  destruct (request_failure_is_wrong_answer [entryWith (Some (js "7"))] findExact
              netDown (js "Return zero.") refMain (entryWith (Some (js "7")))
              eq_refl eq_refl) as (H1 & H2 & _).
  - intros run message. discriminate.
  - split; [exact H1|exact H2].
Defined.

(** A message of the service is the [stderr] and the [error] of the
    result, whole. *)
Example runCCode_message :
  runCCode (fun _ _ => Answered None (Some (js "boom"))) refMain []
  = {| success := false; stdout := []; stderr := js "boom";
       error := Some (js "boom") |}.
Proof. reflexivity. Qed.

Example heuristic_default_code :
  Heuristics.score
    (Heuristics.validateCCode
       (js "#include <stdio.h>" ++ [10] ++ js "int main() {" ++ [10]
          ++ js "    scanf(x);" ++ [10] ++ js "    return 0;" ++ [10] ++ js "}"))
  = 100%Z
  /\ Heuristics.score
       (Heuristics.validateCCode (js "int main( { printf(1); gets (x); int y ;"))
     = 40%Z
  /\ Heuristics.score (Heuristics.validateCCode (js "int main() { return 0 }")) = 95%Z
  /\ Heuristics.score (Heuristics.validateCCode (js "int main() { return  0 }")) = 100%Z.
Proof. vm_compute. repeat split; reflexivity. Qed.

End MoreSampleRuns.
